(** * hard-drive-checker: disk_size.py

    A shallow embedding of [disk_size.py] and the properties of its two
    backends ([LinuxOSDiskChecker], [WindowsOSDiskChecker]), of the
    constructor of [DiskCheckerAbstractClass] and of the dispatcher.

    Python values are modelled as follows.
    - [str] is [string]; a character is a code point below 256.
    - [int] is [Z]; positions in a list are [nat].
    - a Python list is a [list]; indexing follows Python (negative indices
      count from the end, anything else out of range raises [IndexError]).
    - exceptions, printing and the queries to the operating system are the
      effects of the monad [M]: a computation maps the state of the host to
      a result or a raised exception, the events it performed, and the state
      of the host afterwards. *)

From Stdlib Require Import ZArith List String Ascii Bool Lia DecimalString.
From Stdlib Require DecimalPos.
Import ListNotations.

Local Open Scope string_scope.
Local Open Scope Z_scope.

(** ** Python built-ins used by the program *)

Module Py.

(** [str.isspace] on one character (code points below 256). *)
Definition isspace (c : ascii) : bool :=
  let n := N_of_ascii c in
  ((9 <=? n) && (n <=? 13) || (28 <=? n) && (n <=? 32)
   || (n =? 133) || (n =? 160))%N.

Fixpoint lstrip (s : string) : string :=
  match s with
  | EmptyString => EmptyString
  | String c s' => if isspace c then lstrip s' else s
  end.

Fixpoint rstrip (s : string) : string :=
  match s with
  | EmptyString => EmptyString
  | String c s' =>
      match rstrip s' with
      | EmptyString => if isspace c then EmptyString else String c EmptyString
      | r => String c r
      end
  end.

(** [s.strip()] *)
Definition strip (s : string) : string := lstrip (rstrip s).

(** [s.split(sep)] for a separator of one character: every occurrence of
    the separator cuts, so empty fields are kept and the result is never
    empty. *)
Fixpoint split_sep (sep : ascii) (s : string) : list string :=
  match s with
  | EmptyString => [EmptyString]
  | String c s' =>
      if Ascii.eqb c sep then EmptyString :: split_sep sep s'
      else match split_sep sep s' with
           | w :: ws => String c w :: ws
           | [] => [String c EmptyString]
           end
  end.

(** [s.split()]: runs of whitespace separate, no empty field is produced. *)
Fixpoint split (s : string) : list string :=
  match s with
  | EmptyString => []
  | String c s' =>
      if isspace c then split s'
      else match s' with
           | EmptyString => [String c EmptyString]
           | String c' _ =>
               if isspace c' then String c EmptyString :: split s'
               else match split s' with
                    | w :: ws => String c w :: ws
                    | [] => [String c EmptyString]
                    end
           end
  end.

(** [sep.join(l)] *)
Definition join (sep : string) (l : list string) : string :=
  String.concat sep l.

(** [s.replace(old, new)] for [old] of one character. *)
Fixpoint replace (old : ascii) (new : string) (s : string) : string :=
  match s with
  | EmptyString => EmptyString
  | String c s' =>
      if Ascii.eqb c old then new ++ replace old new s'
      else String c (replace old new s')
  end.

(** [str(n)] for an integer [n]. *)
Definition str_int (n : Z) : string := NilZero.string_of_int (Z.to_int n).

(** [len(l)] *)
Definition len {A} (l : list A) : Z := Z.of_nat (List.length l).

(** The exceptions the program can meet. *)
Inductive exn := ValueError | IndexError | TypeError.

Definition exn_eqb (a b : exn) : bool :=
  match a, b with
  | ValueError, ValueError | IndexError, IndexError
  | TypeError, TypeError => true
  | _, _ => false
  end.

(** [l[i]]: [None] stands for [IndexError]. *)
Definition getitem {A} (l : list A) (i : Z) : option A :=
  if (0 <=? i) && (i <? len l) then nth_error l (Z.to_nat i)
  else if (- len l <=? i) && (i <? 0) then nth_error l (Z.to_nat (len l + i))
  else None.

(** [enumerate(l, start)] *)
Fixpoint enumerate {A} (start : Z) (l : list A) : list (Z * A) :=
  match l with
  | [] => []
  | x :: l' => (start, x) :: enumerate (start + 1) l'
  end.

(** [zip(l1, l2)] stops at the end of the shorter list. *)
Definition zip {A B} (l1 : list A) (l2 : list B) : list (A * B) :=
  combine l1 l2.

(** *** [int(s)] for a string [s]

    Surrounding whitespace is skipped, one sign is accepted, then decimal
    digits follow, where single underscores may stand between two digits.
    Anything else is a [ValueError], here [None].  The whitespace that
    [int] skips is not [isspace]: the separators 28..31 are refused.  (The
    limit that recent interpreters put on the number of digits is not
    modelled.) *)
Definition is_int_space (c : ascii) : bool :=
  let n := N_of_ascii c in
  ((9 <=? n) && (n <=? 13) || (n =? 32) || (n =? 133) || (n =? 160))%N.

Definition is_digit (c : ascii) : bool :=
  let n := N_of_ascii c in ((48 <=? n) && (n <=? 57))%N.

Definition digit_value (c : ascii) : Z := Z.of_N (N_of_ascii c) - 48.

Fixpoint int_lstrip (s : string) : string :=
  match s with
  | EmptyString => EmptyString
  | String c s' => if is_int_space c then int_lstrip s' else s
  end.

Fixpoint int_rstrip (s : string) : string :=
  match s with
  | EmptyString => EmptyString
  | String c s' =>
      match int_rstrip s' with
      | EmptyString =>
          if is_int_space c then EmptyString else String c EmptyString
      | r => String c r
      end
  end.

(** The digits, [after_digit] telling whether the previous character was
    a digit (an underscore is accepted only then, and not at the end). *)
Fixpoint digits (acc : Z) (after_digit : bool) (s : string) : option Z :=
  match s with
  | EmptyString => if after_digit then Some acc else None
  | String c s' =>
      if is_digit c then digits (10 * acc + digit_value c) true s'
      else if Ascii.eqb c "_" then
             if after_digit then digits acc false s' else None
      else None
  end.

Definition int (s : string) : option Z :=
  match int_lstrip (int_rstrip s) with
  | String "+" r => digits 0 false r
  | String "-" r => option_map Z.opp (digits 0 false r)
  | t => digits 0 false t
  end.

(** Truth value of an optional string: [None] and [''] are false. *)
Definition truthy (x : option string) : bool :=
  match x with
  | Some (String _ _) => true
  | _ => false
  end.

End Py.

Import Py.

(** A line break and a double quote, as strings, and the backslash. *)
Definition nl : string := String "010" EmptyString.
Definition dq : string := String "034" EmptyString.
Definition backslash : ascii := "092".

(** ** The host: what the program asks the operating system

    The program reads its data from three collaborators: the shell
    ([os.popen(cmd).readlines()]), the instrumentation interface
    ([wmi.WMI().Win32_DiskDrive()]) and [psutil.disk_partitions()].  A query
    may change the state of the host, so two queries need not answer alike.
    The size formatter of [hurry.filesize] is a collaborator too.  The
    class attribute [cas] is taken to exist: the Windows-like backend is
    modelled on a host that has the instrumentation interface. *)

(** A disk-drive object of the instrumentation interface.  [Size] is an
    unsigned integer there, handed over as a decimal numeral; [int(d.size)]
    is that integer. *)
Record Win32_DiskDrive := {
  DeviceID : string;
  Description : string;
  Size : Z
}.

Class Host := {
  OS : Type;
  popen_readlines : string -> OS -> list string * OS;
  cas_Win32_DiskDrive : OS -> list Win32_DiskDrive * OS;
  sdiskpart : Type;
  str_sdiskpart : sdiskpart -> string;
  psutil_disk_partitions : OS -> list sdiskpart * OS;
  size : Z -> string
}.

(** ** Effects *)

Inductive event :=
| Stdout (text : string)
| Shell (command : string)
| Wmi
| Psutil.

Inductive result (A : Type) :=
| Return (a : A)
| Raise (e : exn).
Arguments Return {A} a.
Arguments Raise {A} e.

Section Effects.
Context `{Host}.

Record outcome (A : Type) := Outcome {
  res : result A;
  events : list event;
  host_after : OS
}.
Arguments Outcome {A}.
Arguments res {A}.
Arguments events {A}.
Arguments host_after {A}.

Definition M (A : Type) : Type := OS -> outcome A.

Definition ret {A} (a : A) : M A := fun os => Outcome (Return a) [] os.

Definition raise {A} (e : exn) : M A := fun os => Outcome (Raise e) [] os.

(** The outcome [o] of what ran after the events [evs]. *)
Definition after (evs : list event) {A} (o : outcome A) : outcome A :=
  match o with
  | Outcome r evs' os' => Outcome r (evs ++ evs') os'
  end.

Definition bind {A B} (m : M A) (k : A -> M B) : M B :=
  fun os =>
    match m os with
    | Outcome (Return a) evs os' => after evs (k a os')
    | Outcome (Raise e) evs os' => Outcome (Raise e) evs os'
    end.

(** [try: body except ...: handler]; [handler e] is [None] when no
    [except] clause matches [e]. *)
Definition try_except {A} (body : M A) (handler : exn -> option (M A)) : M A :=
  fun os =>
    match body os with
    | Outcome (Return a) evs os' => Outcome (Return a) evs os'
    | Outcome (Raise e) evs os' =>
        match handler e with
        | Some h => after evs (h os')
        | None => Outcome (Raise e) evs os'
        end
    end.

(** One clause [except e: h]. *)
Definition except (e : exn) {A} (h : M A) : exn -> option (M A) :=
  fun e' => if exn_eqb e' e then Some h else None.

(** [print(s)] *)
Definition print (s : string) : M unit :=
  fun os => Outcome (Return tt) [Stdout s] os.

(** [os.popen(cmd).readlines()] *)
Definition popen (cmd : string) : M (list string) :=
  fun os =>
    let (lines, os') := popen_readlines cmd os in
    Outcome (Return lines) [Shell cmd] os'.

(** [self.cas.Win32_DiskDrive()] *)
Definition Win32_DiskDrives : M (list Win32_DiskDrive) :=
  fun os =>
    let (drives, os') := cas_Win32_DiskDrive os in
    Outcome (Return drives) [Wmi] os'.

(** [psutil.disk_partitions()] *)
Definition disk_partitions : M (list sdiskpart) :=
  fun os =>
    let (volumes, os') := psutil_disk_partitions os in
    Outcome (Return volumes) [Psutil] os'.

(** [l[i]] as a computation. *)
Definition item {A} (l : list A) (i : Z) : M A :=
  match getitem l i with
  | Some x => ret x
  | None => raise IndexError
  end.

(** The value a call returned, used as a list: [None] is not
    subscriptable. *)
Definition as_list {A} (v : option (list A)) : M (list A) :=
  match v with
  | Some l => ret l
  | None => raise TypeError
  end.

(** [int(s)] as a computation. *)
Definition int_ (s : string) : M Z :=
  match int s with
  | Some n => ret n
  | None => raise ValueError
  end.

(** [[f(x) for x in l]] *)
Fixpoint comprehension {A B} (f : A -> M B) (l : list A) : M (list B) :=
  match l with
  | [] => ret []
  | x :: l' =>
      bind (f x) (fun y => bind (comprehension f l') (fun ys => ret (y :: ys)))
  end.

(** [for x in l: body(x)] *)
Fixpoint for_each {A} (l : list A) (body : A -> M unit) : M unit :=
  match l with
  | [] => ret tt
  | x :: l' => bind (body x) (fun _ => for_each l' body)
  end.

(** What a run wrote to standard output: every [print] writes its text
    and a line break. *)
Fixpoint stdout (evs : list event) : string :=
  match evs with
  | [] => EmptyString
  | Stdout s :: evs' => s ++ nl ++ stdout evs'
  | _ :: evs' => stdout evs'
  end.

(** The shell commands a run issued, in order. *)
Fixpoint commands (evs : list event) : list string :=
  match evs with
  | [] => []
  | Shell cmd :: evs' => cmd :: commands evs'
  | _ :: evs' => commands evs'
  end.

End Effects.

Arguments Outcome {_ A}.
Arguments res {_ A}.
Arguments events {_ A}.
Arguments host_after {_ A}.

Declare Scope py_scope.
Delimit Scope py_scope with py.
Notation "x <- m ;; k" := (bind m (fun x => k))
  (at level 100, m at next level, right associativity) : py_scope.
Notation "m ;; k" := (bind m (fun _ => k))
  (at level 100, right associativity) : py_scope.
Local Open Scope py_scope.

(** ** DiskCheckerAbstractClass *)

(** The two abstract methods.  [check_disks] returns the records when
    [return_data] is set and [None] otherwise. *)
Class DiskCheckerAbstractClass `{Host} (Data : Type) := {
  check_disks : bool -> M (option Data);
  check_specific_drive : string -> M unit
}.

(** [__init__(self, hard_drive=None)] *)
Definition __init__ `{Host} {Data} {self : DiskCheckerAbstractClass Data}
    (hard_drive : option string) : M unit :=
  match hard_drive with
  | Some inp =>
      if truthy hard_drive then check_specific_drive inp
      else (check_disks false ;; ret tt)
  | None => check_disks false ;; ret tt
  end.

(** ** LinuxOSDiskChecker *)

Module LinuxOSDiskChecker.
Section Backend.
Context `{Host}.

(** The listing of the drives: rows of [lsblk] described as "disk". *)
Definition lsblk_disks : string := "lsblk -o NAME,TYPE,SIZE | grep 'disk'".

(** ['lsblk {} -o NAME,TYPE,SIZE'.format(hard_drive_path)] *)
Definition lsblk_drive (hard_drive_path : string) : string :=
  "lsblk " ++ hard_drive_path ++ " -o NAME,TYPE,SIZE".

(** ['You have {} hard {} installed: \n'.format(...)] *)
Definition report_header (n : Z) : string :=
  "You have " ++ str_int n ++ " hard "
    ++ (if 1 <? n then "drives" else "drive") ++ " installed: " ++ nl.

(** ['{}. {} -> {}'.format(index, drive_name, drive_size)] *)
Definition report_line (index : Z) (drive_name drive_size : string) : string :=
  str_int index ++ ". " ++ drive_name ++ " -> " ++ drive_size.

Definition check_disks (return_data : bool) : M (option (list (list string))) :=
  lines <- popen lsblk_disks ;;
  let hard_drives := map (fun disk => split_sep " " (strip disk)) lines in
  hard_drives_data <-
    comprehension (fun drive =>
      name <- item drive 0 ;;
      last <- item drive (-1) ;;
      ret ["/dev/" ++ name; last]) hard_drives ;;
  if return_data then ret (Some hard_drives_data)
  else
    print (report_header (len hard_drives_data)) ;;
    for_each (enumerate 1 hard_drives_data) (fun '(index, drive) =>
      match drive with
      | [drive_name; drive_size] =>
          print (report_line index drive_name drive_size)
      | _ => raise ValueError
      end) ;;
    ret None.

(** ['Below are the partitions for "/dev/{}" drive:'.format(...)] *)
Definition partitions_header (name : string) : string :=
  "Below are the partitions for " ++ dq ++ "/dev/" ++ name ++ dq ++ " drive:".

(** ['Drive {} not found!'.format(inp)] *)
Definition not_found (inp : string) : string :=
  "Drive " ++ inp ++ " not found!".

(** The text printed when the number names no drive. *)
Definition wrong_id : string := "Please enter the correct hard drive id!".

(** The part of [check_specific_drive] after the path is known. *)
Definition describe (inp hard_drive_path : string) : M unit :=
  partitions <- popen (lsblk_drive hard_drive_path) ;;
  match partitions with
  | _ :: _ =>
      second <- item partitions 1 ;;
      name <- item (split second) 0 ;;
      print (partitions_header name) ;;
      print (join EmptyString partitions)
  | [] => print (not_found inp)
  end.

(** [check_specific_drive]: the [try] statement computes the path, or
    [None] where the source returns from the handler. *)
Definition check_specific_drive (inp : string) : M unit :=
  path <-
    try_except
      (n <- int_ inp ;;
       let hard_drive_id := n - 1 in
       returned <- check_disks true ;;
       try_except
         (disks_list <- as_list returned ;;
          drive <- item disks_list hard_drive_id ;;
          hard_drive_path <- item drive 0 ;;
          ret (Some hard_drive_path))
         (except IndexError
            (print wrong_id ;;
             check_disks false ;;
             ret None)))
      (except ValueError (ret (Some inp))) ;;
  match path with
  | Some hard_drive_path => describe inp hard_drive_path
  | None => ret tt
  end.

#[export] Instance checker : DiskCheckerAbstractClass (list (list string)) := {
  check_disks := check_disks;
  check_specific_drive := check_specific_drive
}.

End Backend.
End LinuxOSDiskChecker.

(** ** WindowsOSDiskChecker *)

Module WindowsOSDiskChecker.
Section Backend.
Context `{Host}.

(** A drive is a Python list that holds an integer, strings and, once
    appended, a volume. *)
Inductive field :=
| FInt (n : Z)
| FStr (s : string)
| FVol (v : sdiskpart).

(** [str(x)] *)
Definition str (x : field) : string :=
  match x with
  | FInt n => str_int n
  | FStr s => s
  | FVol v => str_sdiskpart v
  end.

(** [[index, d.DeviceID.replace('.', '').replace('\\', ''),
      d.Description, size(int(d.size))]] *)
Definition drive_of (index : Z) (d : Win32_DiskDrive) : list field :=
  [FInt index;
   FStr (replace backslash EmptyString (replace "." EmptyString (DeviceID d)));
   FStr (Description d);
   FStr (size (Size d))].

(** [drives_data[i].append(volume)]: the lists of [drives_data] are
    objects, and appending changes the one at that position. *)
Fixpoint append_at (drives_data : list (list field)) (i : nat)
    (volume : sdiskpart) : list (list field) :=
  match drives_data, i with
  | [], _ => []
  | drive :: rest, O => (drive ++ [FVol volume])%list :: rest
  | drive :: rest, S i' => drive :: append_at rest i' volume
  end.

(** [[drive.append(volume) for (drive, volume) in zip(drives_data, volumes)]]:
    the drive of the i-th pair is the i-th list of [drives_data]. *)
Definition append_volumes (drives_data : list (list field))
    (volumes : list sdiskpart) : list (list field) :=
  fold_left (fun store '(i, volume) => append_at store i volume)
    (zip (seq 0 (List.length drives_data)) volumes) drives_data.

(** ["You have {} hard drives installed".format(len(drives_data))] *)
Definition report_header (n : Z) : string :=
  "You have " ++ str_int n ++ " hard drives installed".

(** ['  '.join([str(x) for x in drive])] *)
Definition report_line (drive : list field) : string :=
  join "  " (map str drive).

Definition check_disks (return_data : bool) : M (option (list (list field))) :=
  drives <- Win32_DiskDrives ;;
  let drives_data :=
    map (fun '(index, d) => drive_of index d) (enumerate 1 drives) in
  if return_data then
    volumes <- disk_partitions ;;
    ret (Some (append_volumes drives_data volumes))
  else
    print (report_header (len drives_data)) ;;
    for_each drives_data (fun drive => print (report_line drive)) ;;
    ret None.

(** The texts printed when the selector is no number, and when the number
    names no drive. *)
Definition usage_hint : string :=
  "Please enter valid disk (whole) number! Reference below. " ++ nl.
Definition no_such_disk : string :=
  "Disk with that index does not exist! Please try again.".

Definition check_specific_drive (inp : string) : M unit :=
  try_except
    (n <- int_ inp ;;
     let disk_id := n - 1 in
     returned <- check_disks true ;;
     hard_drives <- as_list returned ;;
     drive <- item hard_drives disk_id ;;
     print (report_line drive))
    (fun e =>
       match e with
       | ValueError =>
           Some (print usage_hint ;;
                 check_disks false ;;
                 ret tt)
       | IndexError =>
           Some (print no_such_disk ;;
                 check_disks false ;;
                 ret tt)
       | _ => None
       end).

#[export] Instance checker : DiskCheckerAbstractClass (list (list field)) := {
  check_disks := check_disks;
  check_specific_drive := check_specific_drive
}.

End Backend.
End WindowsOSDiskChecker.

(** ** The dispatcher *)

(** The body of [if __name__ == '__main__'], for the arguments [argv] of
    the process and the value [os_name] of [os.name]. *)
Definition main `{Host} (argv : list string) (os_name : string) : M unit :=
  let disk := if 1 <? len argv then nth_error argv 1 else None in
  if String.eqb os_name "posix" then
    __init__ (self := LinuxOSDiskChecker.checker) disk
  else if String.eqb os_name "nt" then
    __init__ (self := WindowsOSDiskChecker.checker) disk
  else print "OS not supported!".

(** ** What the backends compute, as functions of the data the host gave *)

(** The records of the POSIX backend for the lines of the listing:
    [['/dev/' + drive[0], drive[-1]]] for [drive = disk.strip().split(' ')]. *)
Definition posix_records (lines : list string) : list (list string) :=
  map (fun disk =>
         let drive := split_sep " " (strip disk) in
         ["/dev/" ++ hd EmptyString drive; List.last drive EmptyString])
      lines.

(** The texts the POSIX report prints, one per [print]. *)
Definition posix_report (records : list (list string)) : list string :=
  LinuxOSDiskChecker.report_header (len records)
  :: map (fun '(index, drive) =>
            LinuxOSDiskChecker.report_line index
              (nth 0 drive EmptyString) (nth 1 drive EmptyString))
         (enumerate 1 records).

(** The drives of the Windows-like backend before any volume is appended. *)
Definition windows_drives `{Host} (drives : list Win32_DiskDrive)
    : list (list WindowsOSDiskChecker.field) :=
  map (fun '(index, d) => WindowsOSDiskChecker.drive_of index d)
      (enumerate 1 drives).

(** The texts the Windows-like report prints, one per [print]. *)
Definition windows_report `{Host}
    (drives_data : list (list WindowsOSDiskChecker.field)) : list string :=
  WindowsOSDiskChecker.report_header (len drives_data)
  :: map WindowsOSDiskChecker.report_line drives_data.

(** The records a call returned ([[]] when it returned none or raised). *)
Definition returned `{Host} {Data} (o : outcome (option (list Data))) : list Data :=
  match res o with
  | Return (Some l) => l
  | _ => []
  end.

(** Two calls of [m] in a row: the second starts where the first ended. *)
Definition second_call `{Host} {A} (m : M A) (os : OS) : outcome A :=
  m (host_after (m os)).

(** What the host answers to the queries of a call that starts in [os],
    and the state it is in afterwards. *)
Section Answers.
Context `{Host}.

Definition listing (os : OS) : list string :=
  fst (popen_readlines LinuxOSDiskChecker.lsblk_disks os).
Definition after_listing (os : OS) : OS :=
  snd (popen_readlines LinuxOSDiskChecker.lsblk_disks os).

Definition wmi_drives (os : OS) : list Win32_DiskDrive :=
  fst (cas_Win32_DiskDrive os).
Definition after_wmi (os : OS) : OS := snd (cas_Win32_DiskDrive os).
Definition volumes_of (os : OS) : list sdiskpart :=
  fst (psutil_disk_partitions (after_wmi os)).
Definition after_volumes (os : OS) : OS :=
  snd (psutil_disk_partitions (after_wmi os)).

End Answers.

(** ** Hosts that answer from tables, for the examples *)

Fixpoint answer (cmd : string) (table : list (string * list string)) : list string :=
  match table with
  | [] => []
  | (c, lines) :: table' => if String.eqb c cmd then lines else answer cmd table'
  end.

(** A size formatter in the manner of [hurry.filesize] (traditional
    system), with integer division. *)
Fixpoint size_in (system : list (Z * string)) (bytes : Z) : string :=
  match system with
  | [] => str_int bytes
  | [(factor, suffix)] => str_int (bytes / factor) ++ suffix
  | (factor, suffix) :: system' =>
      if factor <=? bytes then str_int (bytes / factor) ++ suffix
      else size_in system' bytes
  end.

Definition traditional : list (Z * string) :=
  [(1024 ^ 5, "P"); (1024 ^ 4, "T"); (1024 ^ 3, "G"); (1024 ^ 2, "M");
   (1024, "K"); (1, "B")].

(** The host never changes; a volume is given by its text. *)
Definition table_host (shell : list (string * list string))
    (drives : list Win32_DiskDrive) (volumes : list string) : Host := {|
  OS := unit;
  popen_readlines := fun cmd os => (answer cmd shell, os);
  cas_Win32_DiskDrive := fun os => (drives, os);
  sdiskpart := string;
  str_sdiskpart := fun v => v;
  psutil_disk_partitions := fun os => (volumes, os);
  size := size_in traditional
|}.

(** Two drives, [sda] and [sdb]; [lsblk --version] answers with one line. *)
Definition two_disks_shell : list (string * list string) :=
  [(LinuxOSDiskChecker.lsblk_disks,
    ["sda disk 232.9G" ++ nl; "sdb disk 1T" ++ nl]);
   (LinuxOSDiskChecker.lsblk_drive "/dev/sda",
    ["NAME TYPE SIZE" ++ nl; "sda disk 232.9G" ++ nl; "sda1 part 232.9G" ++ nl]);
   (LinuxOSDiskChecker.lsblk_drive "/dev/sdb",
    ["NAME TYPE SIZE" ++ nl; "sdb disk 1T" ++ nl]);
   (LinuxOSDiskChecker.lsblk_drive "--version",
    ["lsblk from util-linux 2.37.2" ++ nl])].

Definition two_drives : list Win32_DiskDrive :=
  [{| DeviceID := "\\.\PHYSICALDRIVE0"; Description := "Disk drive";
      Size := 250056737280 |};
   {| DeviceID := "\\.\PHYSICALDRIVE1"; Description := "Disk drive";
      Size := 1000202273280 |}].

Definition two_disks : Host :=
  table_host two_disks_shell two_drives ["C:"; "D:"].

(** The same drives with one volume only. *)
Definition two_disks_one_volume : Host :=
  table_host two_disks_shell two_drives ["C:"].

(** A host where a second drive appears after the first listing: the state
    counts the listings answered so far. *)
Definition hotplug : Host := {|
  OS := nat;
  popen_readlines := fun cmd n =>
    if String.eqb cmd LinuxOSDiskChecker.lsblk_disks then
      (match n with
       | O => ["sda disk 232.9G" ++ nl]
       | S _ => ["sda disk 232.9G" ++ nl; "sdb disk 1T" ++ nl]
       end, S n)
    else ([], n);
  cas_Win32_DiskDrive := fun n => (two_drives, n);
  sdiskpart := string;
  str_sdiskpart := fun v => v;
  psutil_disk_partitions := fun n => (["C:"], n);
  size := size_in traditional
|}.

(** Rows as [lsblk] aligns them, with runs of blanks between the columns. *)
Definition padded_rows : Host :=
  table_host
    [(LinuxOSDiskChecker.lsblk_disks,
      ["sda     disk 232.9G" ++ nl; "nvme0n1 disk     1T" ++ nl])]
    [] [].

(** A drive that is listed and then gone: its own listing answers nothing. *)
Definition unplugged : Host :=
  table_host [(LinuxOSDiskChecker.lsblk_disks, ["sdc disk 1T" ++ nl])] [] [].

(** Rows of one field, the second one empty. *)
Definition bare_rows : Host :=
  table_host [(LinuxOSDiskChecker.lsblk_disks, ["sda" ++ nl; nl])] [] [].

(** A host without any drive. *)
Definition no_disks : Host := table_host [] [] [].

(** [c in s] for a character [c]. *)
Fixpoint contains (c : ascii) (s : string) : bool :=
  match s with
  | EmptyString => false
  | String c' s' => Ascii.eqb c' c || contains c s'
  end.

(** ** The Windows-like backend over the drive objects as they come

    [WindowsOSDiskChecker] takes the size of a drive as the integer that
    [int(d.size)] yields.  The instrumentation interface hands [d.size]
    over as a text, or as [None] for a drive that reports no size, and
    [int] raises [TypeError] for [None] and [ValueError] for a text that is
    no number.  Here the two methods are modelled with that conversion in
    place, over drive objects that keep [d.size] as it comes. *)

Record DiskDriveObject := {
  object_DeviceID : string;
  object_Description : string;
  object_size : option string
}.

Module WindowsOSDiskCheckerObjects.
Section Backend.
Context `{Host}.

(** What [self.cas.Win32_DiskDrive()] answers in a state of the host. *)
Variable cas_objects : OS -> list DiskDriveObject * OS.

(** [self.cas.Win32_DiskDrive()] *)
Definition Win32_DiskDrive_objects : M (list DiskDriveObject) :=
  fun os =>
    let (drives, os') := cas_objects os in
    Outcome (Return drives) [Wmi] os'.

(** [int(d.size)] *)
Definition int_size (v : option string) : M Z :=
  match v with
  | None => raise TypeError
  | Some s => int_ s
  end.

(** The element of the comprehension of [check_disks], for one drive. *)
Definition drive_data (index : Z) (d : DiskDriveObject)
    : M (list WindowsOSDiskChecker.field) :=
  n <- int_size (object_size d) ;;
  ret [WindowsOSDiskChecker.FInt index;
       WindowsOSDiskChecker.FStr
         (replace backslash EmptyString
            (replace "." EmptyString (object_DeviceID d)));
       WindowsOSDiskChecker.FStr (object_Description d);
       WindowsOSDiskChecker.FStr (size n)].

Definition check_disks (return_data : bool)
    : M (option (list (list WindowsOSDiskChecker.field))) :=
  drives <- Win32_DiskDrive_objects ;;
  drives_data <-
    comprehension (fun '(index, d) => drive_data index d) (enumerate 1 drives) ;;
  if return_data then
    volumes <- disk_partitions ;;
    ret (Some (WindowsOSDiskChecker.append_volumes drives_data volumes))
  else
    print (WindowsOSDiskChecker.report_header (len drives_data)) ;;
    for_each drives_data
      (fun drive => print (WindowsOSDiskChecker.report_line drive)) ;;
    ret None.

Definition check_specific_drive (inp : string) : M unit :=
  try_except
    (n <- int_ inp ;;
     let disk_id := n - 1 in
     returned <- check_disks true ;;
     hard_drives <- as_list returned ;;
     drive <- item hard_drives disk_id ;;
     print (WindowsOSDiskChecker.report_line drive))
    (fun e =>
       match e with
       | ValueError =>
           Some (print WindowsOSDiskChecker.usage_hint ;;
                 check_disks false ;;
                 ret tt)
       | IndexError =>
           Some (print WindowsOSDiskChecker.no_such_disk ;;
                 check_disks false ;;
                 ret tt)
       | _ => None
       end).

End Backend.
End WindowsOSDiskCheckerObjects.

(** Whether [int] accepts the size of a drive object. *)
Definition size_is_number (d : DiskDriveObject) : bool :=
  match object_size d with
  | Some s => match int s with Some _ => true | None => false end
  | None => false
  end.

(** The drive that [WindowsOSDiskChecker] works on, for a drive object
    whose size [int] accepts. *)
Definition object_drive (d : DiskDriveObject) : Win32_DiskDrive :=
  {| DeviceID := object_DeviceID d;
     Description := object_Description d;
     Size := match object_size d with
             | Some s => match int s with Some n => n | None => 0 end
             | None => 0
             end |}.

(** Drive objects for the examples: two with a size, and the same with a
    card reader that reports none put first. *)
Definition two_objects : list DiskDriveObject :=
  [{| object_DeviceID := "\\.\PHYSICALDRIVE0"; object_Description := "Disk drive";
      object_size := Some "250056737280" |};
   {| object_DeviceID := "\\.\PHYSICALDRIVE1"; object_Description := "Disk drive";
      object_size := Some "1000202273280" |}].

Definition card_reader : DiskDriveObject :=
  {| object_DeviceID := "\\.\PHYSICALDRIVE2"; object_Description := "Card reader";
     object_size := None |}.

(** Hosts of the examples that answer with these objects. *)
Definition objects_with_size : OS (Host := two_disks) -> list DiskDriveObject * unit :=
  fun os => (two_objects, os).
Definition objects_with_card_reader : OS (Host := two_disks) -> list DiskDriveObject * unit :=
  fun os => (card_reader :: two_objects, os).

(** The NUL character. *)
Definition nul : ascii := "000".

(** * Properties *)

(** ** Lists and strings *)

Lemma len_nonneg {A} (l : list A) : 0 <= len l.
Proof. unfold len. lia. Qed.

Lemma len_cons {A} (x : A) (l : list A) : len (x :: l) = len l + 1.
Proof. unfold len. cbn [List.length]. lia. Qed.

(** A position that is not negative is read from the front. *)
Lemma getitem_nonneg {A} (l : list A) (i : Z) :
  0 <= i -> getitem l i = nth_error l (Z.to_nat i).
Proof.
  intros Hi. unfold getitem.
  destruct (Z.ltb_spec i (len l)) as [Hlt | Hge].
  - replace (0 <=? i) with true by (symmetry; apply Z.leb_le; lia).
    reflexivity.
  - replace (i <? 0) with false by (symmetry; apply Z.ltb_ge; lia).
    rewrite !andb_false_r. symmetry. apply nth_error_None.
    unfold len in Hge. lia.
Qed.

(** A negative position is read from the end, as far as the list goes. *)
Lemma getitem_neg {A} (l : list A) (i : Z) :
  i < 0 ->
  getitem l i =
  if - len l <=? i then nth_error l (Z.to_nat (len l + i)) else None.
Proof.
  intros Hi. unfold getitem.
  replace (0 <=? i) with false by (symmetry; apply Z.leb_gt; lia).
  replace (i <? 0) with true by (symmetry; apply Z.ltb_lt; lia).
  cbn [andb]. rewrite andb_true_r. reflexivity.
Qed.

Lemma getitem_in_range {A} (l : list A) (i : Z) :
  1 <= i <= len l ->
  exists x, nth_error l (Z.to_nat (i - 1)) = Some x /\ getitem l (i - 1) = Some x.
Proof.
  intros Hi. rewrite getitem_nonneg by lia.
  destruct (nth_error l (Z.to_nat (i - 1))) as [x |] eqn:E.
  - exists x. split; reflexivity.
  - apply nth_error_None in E. unfold len in Hi. lia.
Qed.

Lemma getitem_out_of_range {A} (l : list A) (i : Z) :
  len l < i \/ i <= - len l -> getitem l (i - 1) = None.
Proof.
  intros [Hi | Hi].
  - pose proof (len_nonneg l). rewrite getitem_nonneg by lia.
    apply nth_error_None. unfold len in Hi. lia.
  - pose proof (len_nonneg l). rewrite getitem_neg by lia.
    replace (- len l <=? i - 1) with false by (symmetry; apply Z.leb_gt; lia).
    reflexivity.
Qed.

(** Zero and the negative numbers above [- len l] wrap around. *)
Lemma getitem_wraps {A} (l : list A) (i : Z) :
  - len l < i <= 0 ->
  exists x, nth_error l (Z.to_nat (len l + i - 1)) = Some x
            /\ getitem l (i - 1) = Some x.
Proof.
  intros Hi. rewrite getitem_neg by lia.
  replace (- len l <=? i - 1) with true by (symmetry; apply Z.leb_le; lia).
  replace (len l + (i - 1)) with (len l + i - 1) by lia.
  destruct (nth_error l (Z.to_nat (len l + i - 1))) as [x |] eqn:E.
  - exists x. split; reflexivity.
  - apply nth_error_None in E. unfold len in *. lia.
Qed.

Lemma getitem_first {A} (x : A) (l : list A) : getitem (x :: l) 0 = Some x.
Proof. rewrite getitem_nonneg by lia. reflexivity. Qed.

Lemma getitem_second {A} (x y : A) (l : list A) : getitem (x :: y :: l) 1 = Some y.
Proof. rewrite getitem_nonneg by lia. reflexivity. Qed.

Lemma getitem_In {A} (l : list A) (i : Z) (x : A) : getitem l i = Some x -> In x l.
Proof.
  unfold getitem. intros E.
  destruct ((0 <=? i) && (i <? len l)); [eapply nth_error_In; eauto |].
  destruct ((- len l <=? i) && (i <? 0)); [eapply nth_error_In; eauto |].
  discriminate.
Qed.

Lemma nth_error_last {A} (l : list A) (d : A) :
  l <> [] -> nth_error l (List.length l - 1) = Some (List.last l d).
Proof.
  induction l as [| x l IH]; intros Hne; [congruence |].
  destruct l as [| y l'].
  - reflexivity.
  - cbn [List.length List.last]. cbn [List.length] in IH.
    replace (S (S (List.length l')) - 1)%nat with (S (S (List.length l') - 1))
      by lia.
    cbn [nth_error]. apply IH. discriminate.
Qed.

Lemma getitem_last {A} (l : list A) (d : A) :
  l <> [] -> getitem l (-1) = Some (List.last l d).
Proof.
  intros Hne. rewrite getitem_neg by lia.
  assert (0 < len l).
  { destruct l; [congruence |]. rewrite len_cons. pose proof (len_nonneg l). lia. }
  replace (- len l <=? -1) with true by (symmetry; apply Z.leb_le; lia).
  replace (Z.to_nat (len l + -1)) with (List.length l - 1)%nat
    by (unfold len; lia).
  apply nth_error_last. exact Hne.
Qed.

Lemma append_empty_r (a : string) : a ++ EmptyString = a.
Proof.
  induction a as [| x a IH]; cbn [String.append]; [reflexivity |].
  rewrite IH. reflexivity.
Qed.

(** [split(' ')] never gives the empty list. *)
Lemma split_sep_nonempty (sep : ascii) (s : string) : split_sep sep s <> [].
Proof.
  destruct s as [| c s]; cbn [split_sep]; [discriminate |].
  destruct (Ascii.eqb c sep); [discriminate |].
  destruct (split_sep sep s); discriminate.
Qed.

(** ** Running computations *)

Section Runs.
Context `{Host}.

Lemma after_nil {A} (o : outcome A) : after [] o = o.
Proof. destruct o. reflexivity. Qed.

Lemma events_after {A} (evs : list event) (o : outcome A) :
  events (after evs o) = (evs ++ events o)%list.
Proof. destruct o. reflexivity. Qed.

(** A comprehension whose element never raises and has no effect is [map]. *)
Lemma comprehension_pure {A B} (f : A -> M B) (g : A -> B) (l : list A) (os : OS) :
  (forall x os', In x l -> f x os' = Outcome (Return (g x)) [] os') ->
  comprehension f l os = Outcome (Return (map g l)) [] os.
Proof.
  induction l as [| x l IH]; intros Hf; cbn [comprehension map].
  - reflexivity.
  - unfold bind. rewrite (Hf x os (or_introl eq_refl)). cbn [res host_after events].
    rewrite IH by (intros y os' Hy; apply Hf; right; exact Hy).
    reflexivity.
Qed.

(** A loop whose body prints one text each time. *)
Lemma for_each_prints {A} (body : A -> M unit) (text : A -> string)
    (l : list A) (os : OS) :
  (forall x os', In x l -> body x os' = Outcome (Return tt) [Stdout (text x)] os') ->
  for_each l body os = Outcome (Return tt) (map Stdout (map text l)) os.
Proof.
  induction l as [| x l IH]; intros Hb; cbn [for_each map].
  - reflexivity.
  - unfold bind. rewrite (Hb x os (or_introl eq_refl)). cbn [res host_after events].
    rewrite IH by (intros y os' Hy; apply Hb; right; exact Hy).
    reflexivity.
Qed.

Lemma commands_prints (texts : list string) : commands (map Stdout texts) = [].
Proof. induction texts as [| s l IH]; cbn [map commands]; auto. Qed.

End Runs.

(** ** The POSIX backend *)

Section Posix.
Context `{Host}.
Import LinuxOSDiskChecker.

Lemma posix_records_pairs (lines : list string) (drive : list string) :
  In drive (posix_records lines) -> exists name sz, drive = [name; sz].
Proof.
  unfold posix_records. intros Hin. apply in_map_iff in Hin.
  destruct Hin as [disk [<- _]]. eauto.
Qed.

Lemma posix_check_disks_run (return_data : bool) (os : OS) :
  check_disks return_data os =
  Outcome (Return (if return_data then Some (posix_records (listing os)) else None))
          (Shell lsblk_disks ::
             (if return_data then []
              else map Stdout (posix_report (posix_records (listing os)))))
          (after_listing os).
Proof.
  unfold check_disks, listing, after_listing, bind, popen.
  destruct (popen_readlines lsblk_disks os) as [lines os1].
  cbn [after res events host_after fst snd].
  rewrite (comprehension_pure _
             (fun drive => ["/dev/" ++ hd EmptyString drive;
                            List.last drive EmptyString])).
  2:{ intros drive os' Hin. apply in_map_iff in Hin.
      destruct Hin as [disk [<- _]].
      pose proof (split_sep_nonempty " " (strip disk)) as Hne.
      unfold item.
      rewrite (getitem_last _ EmptyString Hne).
      destruct (split_sep " " (strip disk)) as [| w ws]; [congruence |].
      rewrite getitem_first. reflexivity. }
  rewrite map_map. fold (posix_records lines).
  cbn [after res events host_after].
  destruct return_data.
  - reflexivity.
  - cbn [after print res events host_after].
    rewrite (for_each_prints _
               (fun '(index, drive) =>
                  report_line index (nth 0 drive EmptyString)
                    (nth 1 drive EmptyString))).
    2:{ intros [index drive] os' Hin.
        assert (Hd : In drive (posix_records lines)).
        { apply (in_map snd) in Hin. cbn [snd] in Hin.
          revert Hin. generalize 1. generalize (posix_records lines).
          induction l as [| y l IH]; intros k; cbn [enumerate map snd In].
          - tauto.
          - intros [-> | Hin]; [left; reflexivity | right; eapply IH; eauto]. }
        destruct (posix_records_pairs _ _ Hd) as [name [sz ->]].
        reflexivity. }
    cbn [after res events host_after ret app].
    rewrite ?app_nil_r. reflexivity.
Qed.

Lemma describe_run (inp hard_drive_path : string) (os : OS) :
  describe inp hard_drive_path os =
  let cmd := lsblk_drive hard_drive_path in
  let os1 := snd (popen_readlines cmd os) in
  match fst (popen_readlines cmd os) with
  | [] => Outcome (Return tt) [Shell cmd; Stdout (not_found inp)] os1
  | [_] => Outcome (Raise IndexError) [Shell cmd] os1
  | (_ :: second :: _) as partitions =>
      match split second with
      | [] => Outcome (Raise IndexError) [Shell cmd] os1
      | name :: _ =>
          Outcome (Return tt)
                  [Shell cmd; Stdout (partitions_header name);
                   Stdout (join EmptyString partitions)] os1
      end
  end.
Proof.
  unfold describe, bind, popen.
  destruct (popen_readlines (lsblk_drive hard_drive_path) os) as [partitions os1].
  cbn [after res events host_after fst snd].
  destruct partitions as [| first [| second rest]].
  - reflexivity.
  - reflexivity.
  - unfold item.
    rewrite getitem_second. cbn [after ret res events host_after].
    destruct (split second) as [| name names].
    + reflexivity.
    + rewrite getitem_first. reflexivity.
Qed.

(** [check_specific_drive] for a selector that [int] accepts. *)
Lemma posix_by_number (inp : string) (n : Z) (os : OS) :
  int inp = Some n ->
  check_specific_drive inp os =
  match getitem (posix_records (listing os)) (n - 1) with
  | Some drive =>
      after [Shell lsblk_disks]
        (describe inp (hd EmptyString drive) (after_listing os))
  | None =>
      let o := check_disks false (after_listing os) in
      Outcome (Return tt)
        (Shell lsblk_disks :: Stdout wrong_id
           :: events o)
        (host_after o)
  end.
Proof.
  intros Hint.
  destruct (getitem (posix_records (listing os)) (n - 1)) as [drive |] eqn:E.
  - destruct (posix_records_pairs _ _ (getitem_In _ _ _ E)) as [name [sz ->]].
    unfold check_specific_drive, bind, try_except, int_, item.
    rewrite Hint. cbn [after ret res events host_after].
    rewrite (posix_check_disks_run true). cbn [after res events host_after as_list ret].
    rewrite E. cbn [after ret raise res events host_after app hd].
    rewrite getitem_first.
    cbn [after ret raise res events host_after app hd].
    reflexivity.
  - unfold check_specific_drive, bind, try_except, int_, item.
    rewrite Hint. cbn [after ret res events host_after].
    rewrite (posix_check_disks_run true). cbn [after res events host_after as_list ret].
    rewrite E.
    cbn [after ret raise res events host_after app except exn_eqb print].
    rewrite (posix_check_disks_run false).
    cbn [after ret raise res events host_after app except exn_eqb print].
    rewrite ?app_nil_r.
    reflexivity.
Qed.

(** [check_specific_drive] for a selector that [int] refuses. *)
Lemma posix_by_path (inp : string) (os : OS) :
  int inp = None -> check_specific_drive inp os = describe inp inp os.
Proof.
  intros Hint.
  unfold check_specific_drive, bind, try_except, int_.
  rewrite Hint.
  cbn [after ret raise res events host_after app except exn_eqb print].
  apply after_nil.
Qed.

End Posix.

(** ** The Windows-like backend *)

Section Windows.
Context `{Host}.
Import WindowsOSDiskChecker.






Lemma windows_check_disks_run (return_data : bool) (os : OS) :
  check_disks return_data os =
  if return_data then
    Outcome (Return (Some (append_volumes (windows_drives (wmi_drives os))
                             (volumes_of os))))
            [Wmi; Psutil] (after_volumes os)
  else
    Outcome (Return None)
            (Wmi :: map Stdout (windows_report (windows_drives (wmi_drives os))))
            (after_wmi os).
Proof.
  unfold check_disks, wmi_drives, after_wmi, volumes_of, after_volumes, after_wmi.
  unfold bind, Win32_DiskDrives, disk_partitions.
  destruct (cas_Win32_DiskDrive os) as [drives os1].
  cbn [after res events host_after fst snd].
  fold (windows_drives drives).
  destruct return_data.
  - destruct (psutil_disk_partitions os1) as [volumes os2].
    reflexivity.
  - cbn [after print res events host_after].
    rewrite (for_each_prints _ report_line) by reflexivity.
    cbn [after res events host_after ret app]. rewrite app_nil_r. reflexivity.
Qed.

Lemma windows_by_number (inp : string) (n : Z) (os : OS) :
  int inp = Some n ->
  check_specific_drive inp os =
  match getitem (returned (check_disks true os)) (n - 1) with
  | Some drive =>
      Outcome (Return tt) [Wmi; Psutil; Stdout (report_line drive)]
              (after_volumes os)
  | None =>
      let o := check_disks false (after_volumes os) in
      Outcome (Return tt) (Wmi :: Psutil :: Stdout no_such_disk :: events o)
              (host_after o)
  end.
Proof.
  intros Hint. unfold returned. rewrite (windows_check_disks_run true).
  cbn [res].
  unfold check_specific_drive, bind, try_except, int_, item.
  rewrite Hint. cbn [after ret res events host_after].
  rewrite (windows_check_disks_run true). cbn [after res events host_after as_list ret].
  destruct (getitem _ (n - 1)) as [drive |].
  - reflexivity.
  - cbn [after ret raise res events host_after app print].
    rewrite (windows_check_disks_run false).
    cbn [after ret raise res events host_after app print].
    rewrite ?app_nil_r. reflexivity.
Qed.


End Windows.

(** ** Consequences for the POSIX backend *)

Section PosixFacts.
Context `{Host}.
Import LinuxOSDiskChecker.

(** The one shell command of [describe] is the listing of the path. *)
Lemma describe_commands (inp hard_drive_path : string) (os : OS) :
  commands (events (describe inp hard_drive_path os)) = [lsblk_drive hard_drive_path].
Proof.
  rewrite describe_run. cbv zeta.
  destruct (fst (popen_readlines (lsblk_drive hard_drive_path) os))
    as [| first [| second rest]]; try reflexivity.
  destruct (split second); reflexivity.
Qed.

(** [describe] raises nothing but [IndexError]. *)
Lemma describe_raises (inp hard_drive_path : string) (os : OS) (e : exn) :
  res (describe inp hard_drive_path os) = Raise e -> e = IndexError.
Proof.
  rewrite describe_run. cbv zeta.
  destruct (fst (popen_readlines (lsblk_drive hard_drive_path) os))
    as [| first [| second rest]]; cbn [res]; try congruence.
  destruct (split second); cbn [res]; congruence.
Qed.

(** No line: the drive is reported as not found. *)
Lemma describe_no_line (inp hard_drive_path : string) (os : OS) :
  fst (popen_readlines (lsblk_drive hard_drive_path) os) = [] ->
  res (describe inp hard_drive_path os) = Return tt
  /\ stdout (events (describe inp hard_drive_path os)) = not_found inp ++ nl.
Proof.
  intros E. rewrite describe_run. cbv zeta. rewrite E.
  split; [reflexivity |]. cbn [events stdout commands].
  rewrite append_empty_r. reflexivity.
Qed.

(** Two lines or more, the second with a token: the header names that token
    and the lines follow as they came. *)
Lemma describe_lines (inp hard_drive_path : string) (os : OS)
    (first second name : string) (rest names : list string) :
  fst (popen_readlines (lsblk_drive hard_drive_path) os) = first :: second :: rest ->
  split second = name :: names ->
  res (describe inp hard_drive_path os) = Return tt
  /\ stdout (events (describe inp hard_drive_path os)) =
     partitions_header name ++ nl
       ++ join EmptyString (first :: second :: rest) ++ nl.
Proof.
  intros E Hs. rewrite describe_run. cbv zeta. rewrite E, Hs.
  split; [reflexivity |]. cbn [events stdout].
  rewrite append_empty_r. reflexivity.
Qed.

(** One line only: the second line is read all the same, and that raises. *)
Lemma describe_one_line (inp hard_drive_path : string) (os : OS) (line : string) :
  fst (popen_readlines (lsblk_drive hard_drive_path) os) = [line] ->
  res (describe inp hard_drive_path os) = Raise IndexError
  /\ stdout (events (describe inp hard_drive_path os)) = EmptyString.
Proof.
  intros E. rewrite describe_run. cbv zeta. rewrite E. split; reflexivity.
Qed.

(** A second line without a token raises too. *)
Lemma describe_blank_second_line (inp hard_drive_path : string) (os : OS)
    (first second : string) (rest : list string) :
  fst (popen_readlines (lsblk_drive hard_drive_path) os) = first :: second :: rest ->
  split second = [] ->
  res (describe inp hard_drive_path os) = Raise IndexError.
Proof.
  intros E Hs. rewrite describe_run. cbv zeta. rewrite E, Hs. reflexivity.
Qed.

Lemma posix_returned (os : OS) :
  returned (check_disks true os) = posix_records (listing os).
Proof. unfold returned. rewrite posix_check_disks_run. reflexivity. Qed.

(** A number above the count, or at most its opposite, is answered with
    the message and the report. *)
Lemma posix_beyond_the_list (inp : string) (i : Z) (os : OS) :
  int inp = Some i ->
  len (returned (check_disks true os)) < i
  \/ i <= - len (returned (check_disks true os)) ->
  res (check_specific_drive inp os) = Return tt
  /\ stdout (events (check_specific_drive inp os)) =
     wrong_id ++ nl ++ stdout (events (check_disks false (after_listing os))).
Proof.
  intros Hint Hi. rewrite posix_returned in Hi.
  rewrite (posix_by_number inp i os Hint).
  rewrite (getitem_out_of_range _ i Hi). cbv zeta.
  split; [reflexivity |]. cbn [events stdout]. reflexivity.
Qed.

(** Zero and the negative numbers above the opposite of the count select a
    drive, counted from the end. *)
Lemma posix_wraps_around (inp : string) (i : Z) (os : OS) :
  int inp = Some i ->
  - len (returned (check_disks true os)) < i <= 0 ->
  exists drive,
    nth_error (returned (check_disks true os))
      (Z.to_nat (len (returned (check_disks true os)) + i - 1)) = Some drive
    /\ commands (events (check_specific_drive inp os)) =
       [lsblk_disks; lsblk_drive (hd EmptyString drive)].
Proof.
  intros Hint Hi. rewrite posix_returned in *.
  destruct (getitem_wraps _ i Hi) as [drive [Hn Hg]].
  exists drive. split; [exact Hn |].
  rewrite (posix_by_number inp i os Hint). rewrite Hg.
  rewrite events_after. cbn [app commands]. rewrite describe_commands. reflexivity.
Qed.

End PosixFacts.

(** ** Consequences for the Windows-like backend *)

Section WindowsFacts.
Context `{Host}.
Import WindowsOSDiskChecker.



Lemma stdout_one (text : string) : stdout [Stdout text] = text ++ nl.
Proof. cbn [stdout]. rewrite append_empty_r. reflexivity. Qed.

(** A number above the count, or at most its opposite, is answered with
    the message and the report. *)
Lemma windows_beyond_the_list (inp : string) (i : Z) (os : OS) :
  int inp = Some i ->
  len (returned (check_disks true os)) < i
  \/ i <= - len (returned (check_disks true os)) ->
  res (check_specific_drive inp os) = Return tt
  /\ stdout (events (check_specific_drive inp os)) =
     no_such_disk ++ nl ++ stdout (events (check_disks false (after_volumes os))).
Proof.
  intros Hint Hi.
  rewrite (windows_by_number inp i os Hint).
  rewrite (getitem_out_of_range _ i Hi). cbv zeta.
  split; reflexivity.
Qed.

(** Zero and the negative numbers above the opposite of the count print a
    drive, counted from the end. *)
Lemma windows_wraps_around (inp : string) (i : Z) (os : OS) :
  int inp = Some i ->
  - len (returned (check_disks true os)) < i <= 0 ->
  exists drive,
    nth_error (returned (check_disks true os))
      (Z.to_nat (len (returned (check_disks true os)) + i - 1)) = Some drive
    /\ stdout (events (check_specific_drive inp os)) = report_line drive ++ nl.
Proof.
  intros Hint Hi.
  destruct (getitem_wraps _ i Hi) as [drive [Hn Hg]].
  exists drive. split; [exact Hn |].
  rewrite (windows_by_number inp i os Hint). rewrite Hg.
  cbn [events stdout]. rewrite append_empty_r. reflexivity.
Qed.

End WindowsFacts.

(** * The claims *)

(** C1.  For a selector that [int] reads as [i] with [1 <= i <= N], where
    [N] is the number of records of [check_disks(return_data=True)] called
    in the same state of the host: the POSIX [check_specific_drive] reads
    the [i]-th record, takes its first field as the path and goes on as
    the enumeration followed by the description of that path (so the shell
    commands are the listing of the drives and the listing of that path);
    the Windows-like [check_specific_drive] prints the fields of the [i]-th
    drive, joined by two blanks, and returns. *)
Theorem describe_one_selects_ith_record `{Host} (inp : string) (i : Z) (os : OS) :
  int inp = Some i ->
  (1 <= i <= len (returned (LinuxOSDiskChecker.check_disks true os)) ->
   exists path size_,
     nth_error (returned (LinuxOSDiskChecker.check_disks true os))
       (Z.to_nat (i - 1)) = Some [path; size_]
     /\ LinuxOSDiskChecker.check_specific_drive inp os =
        (LinuxOSDiskChecker.check_disks true ;;
         LinuxOSDiskChecker.describe inp path) os
     /\ commands (events (LinuxOSDiskChecker.check_specific_drive inp os)) =
        [LinuxOSDiskChecker.lsblk_disks; LinuxOSDiskChecker.lsblk_drive path])
  /\
  (1 <= i <= len (returned (WindowsOSDiskChecker.check_disks true os)) ->
   exists drive,
     nth_error (returned (WindowsOSDiskChecker.check_disks true os))
       (Z.to_nat (i - 1)) = Some drive
     /\ res (WindowsOSDiskChecker.check_specific_drive inp os) = Return tt
     /\ stdout (events (WindowsOSDiskChecker.check_specific_drive inp os)) =
        WindowsOSDiskChecker.report_line drive ++ nl).
Proof.
  intros Hint. split; intros Hi.
  - rewrite posix_returned in *.
    destruct (getitem_in_range _ i Hi) as [drive [Hn Hg]].
    destruct (posix_records_pairs _ _ (nth_error_In _ _ Hn)) as [path [sz ->]].
    exists path, sz. split; [exact Hn |].
    rewrite (posix_by_number inp i os Hint), Hg. cbn [hd].
    split.
    + unfold bind. rewrite (posix_check_disks_run true). reflexivity.
    + rewrite events_after. cbn [app commands].
      rewrite describe_commands. reflexivity.
  - destruct (getitem_in_range _ i Hi) as [drive [Hn Hg]].
    exists drive. split; [exact Hn |].
    rewrite (windows_by_number inp i os Hint), Hg.
    split; [reflexivity |]. cbn [events]. apply stdout_one.
Qed.

Lemma describe_one_selects_ith_record_witness :
  (exists path size_,
     nth_error (returned (@LinuxOSDiskChecker.check_disks two_disks true tt)) 1
       = Some [path; size_]
     /\ @LinuxOSDiskChecker.check_specific_drive two_disks "2" tt =
        (@LinuxOSDiskChecker.check_disks two_disks true ;;
         @LinuxOSDiskChecker.describe two_disks "2" path) tt
     /\ commands (events (@LinuxOSDiskChecker.check_specific_drive two_disks "2" tt)) =
        [LinuxOSDiskChecker.lsblk_disks; LinuxOSDiskChecker.lsblk_drive path])
  /\
  (exists drive,
     nth_error (returned (@WindowsOSDiskChecker.check_disks two_disks true tt)) 1
       = Some drive
     /\ res (@WindowsOSDiskChecker.check_specific_drive two_disks "2" tt) = Return tt
     /\ stdout (events (@WindowsOSDiskChecker.check_specific_drive two_disks "2" tt)) =
        @WindowsOSDiskChecker.report_line two_disks drive ++ nl).
Proof.
  destruct (@describe_one_selects_ith_record two_disks "2" 2 tt eq_refl)
    as [posix windows].
  split.
  - apply posix. vm_compute. split; discriminate.
  - apply windows. vm_compute. split; discriminate.
Defined.

(** C2.  With two drives present, the selector ["0"] is outside [1, 2],
    yet neither backend reports it: [int("0") - 1] is [-1], which a Python
    list reads as its last position.  The POSIX backend describes
    [/dev/sdb] and the Windows-like backend prints the second drive;
    neither prints its message for a number that names no drive. *)
Theorem selector_zero_describes_last_drive :
  int "0" = Some 0
  /\ len (returned (@LinuxOSDiskChecker.check_disks two_disks true tt)) = 2
  /\ len (returned (@WindowsOSDiskChecker.check_disks two_disks true tt)) = 2
  /\ events (@LinuxOSDiskChecker.check_specific_drive two_disks "0" tt) =
     [Shell LinuxOSDiskChecker.lsblk_disks;
      Shell (LinuxOSDiskChecker.lsblk_drive "/dev/sdb");
      Stdout (LinuxOSDiskChecker.partitions_header "sdb");
      Stdout ("NAME TYPE SIZE" ++ nl ++ "sdb disk 1T" ++ nl)]
  /\ events (@WindowsOSDiskChecker.check_specific_drive two_disks "0" tt) =
     [Wmi; Psutil; Stdout "2  PHYSICALDRIVE1  Disk drive  931G  D:"]
  /\ ~ In (Stdout LinuxOSDiskChecker.wrong_id)
          (events (@LinuxOSDiskChecker.check_specific_drive two_disks "0" tt))
  /\ ~ In (Stdout WindowsOSDiskChecker.no_such_disk)
          (events (@WindowsOSDiskChecker.check_specific_drive two_disks "0" tt)).
Proof.
  repeat split; try (vm_compute; reflexivity).
  - vm_compute. intros [E | [E | [E | [E | []]]]]; discriminate.
  - vm_compute. intros [E | [E | [E | []]]]; discriminate.
Qed.

(** C3.  The selector ["--version"] is no number, so it is taken as the
    path; the listing command then answers with one line.  The list of
    lines is not empty, the second line is read for the header, and that
    raises [IndexError] out of [check_specific_drive]: nothing is printed. *)
Theorem one_line_listing_raises :
  int "--version" = None
  /\ fst (@popen_readlines two_disks (LinuxOSDiskChecker.lsblk_drive "--version") tt) =
     ["lsblk from util-linux 2.37.2" ++ nl]
  /\ res (@LinuxOSDiskChecker.check_specific_drive two_disks "--version" tt) =
     Raise IndexError
  /\ stdout (events (@LinuxOSDiskChecker.check_specific_drive two_disks "--version" tt)) =
     EmptyString.
Proof. repeat split; vm_compute; reflexivity. Qed.


(** Two drives and one volume: the second drive keeps its four fields
    (the fields are shown as [str] gives them). *)
Example one_volume_for_two_drives :
  map (map WindowsOSDiskChecker.str)
      (returned (@WindowsOSDiskChecker.check_disks two_disks_one_volume true tt)) =
  [["1"; "PHYSICALDRIVE0"; "Disk drive"; "232G"; "C:"];
   ["2"; "PHYSICALDRIVE1"; "Disk drive"; "931G"]].
Proof. vm_compute. reflexivity. Qed.

(** C5.  For a selector that [int] refuses, the POSIX
    [check_specific_drive] is the description of the selector taken as the
    path: the one shell command it issues is the listing of that very
    string, and the [ValueError] of the conversion goes no further. *)
Theorem posix_selector_as_path `{Host} (inp : string) (os : OS) :
  int inp = None ->
  LinuxOSDiskChecker.check_specific_drive inp os =
    LinuxOSDiskChecker.describe inp inp os
  /\ commands (events (LinuxOSDiskChecker.check_specific_drive inp os)) =
     [LinuxOSDiskChecker.lsblk_drive inp]
  /\ res (LinuxOSDiskChecker.check_specific_drive inp os) <> Raise ValueError.
Proof.
  intros Hint. rewrite (posix_by_path inp os Hint).
  split; [reflexivity |]. split; [apply describe_commands |].
  intros E. apply describe_raises in E. discriminate.
Qed.

Lemma posix_selector_as_path_witness :
  @LinuxOSDiskChecker.check_specific_drive two_disks "/dev/sdb" tt =
    @LinuxOSDiskChecker.describe two_disks "/dev/sdb" "/dev/sdb" tt
  /\ commands (events (@LinuxOSDiskChecker.check_specific_drive two_disks "/dev/sdb" tt)) =
     [LinuxOSDiskChecker.lsblk_drive "/dev/sdb"]
  /\ res (@LinuxOSDiskChecker.check_specific_drive two_disks "/dev/sdb" tt)
     <> Raise ValueError.
Proof. apply (@posix_selector_as_path two_disks "/dev/sdb" tt). reflexivity. Defined.



(** C7.  When the listing of the drives answers with the two rows
    [sda disk 232.9G] and [sdb disk 1T] (each as a line, whatever blanks
    and line break surround it), [check_disks(return_data=True)] returns
    [[["/dev/sda", "232.9G"], ["/dev/sdb", "1T"]]], and [check_disks()]
    writes to standard output the header [You have 2 hard drives installed]
    (completed by a colon, a blank and an empty line, as the format string
    has them) followed by the lines [1. /dev/sda -> 232.9G] and
    [2. /dev/sdb -> 1T]. *)
Theorem posix_two_drives_example `{Host} (os : OS) (row1 row2 : string) :
  listing os = [row1; row2] ->
  strip row1 = "sda disk 232.9G" ->
  strip row2 = "sdb disk 1T" ->
  res (LinuxOSDiskChecker.check_disks true os) =
    Return (Some [["/dev/sda"; "232.9G"]; ["/dev/sdb"; "1T"]])
  /\ res (LinuxOSDiskChecker.check_disks false os) = Return None
  /\ stdout (events (LinuxOSDiskChecker.check_disks false os)) =
     "You have 2 hard drives installed" ++ ": " ++ nl ++ nl
       ++ "1. /dev/sda -> 232.9G" ++ nl
       ++ "2. /dev/sdb -> 1T" ++ nl.
Proof.
  intros Hrows Hrow1 Hrow2.
  rewrite !posix_check_disks_run. cbn [res events stdout].
  rewrite Hrows. unfold posix_records. cbn [map]. rewrite Hrow1, Hrow2.
  repeat split; vm_compute; reflexivity.
Qed.

Lemma posix_two_drives_example_witness :
  res (@LinuxOSDiskChecker.check_disks two_disks true tt) =
    Return (Some [["/dev/sda"; "232.9G"]; ["/dev/sdb"; "1T"]])
  /\ res (@LinuxOSDiskChecker.check_disks two_disks false tt) = Return None
  /\ stdout (events (@LinuxOSDiskChecker.check_disks two_disks false tt)) =
     "You have 2 hard drives installed" ++ ": " ++ nl ++ nl
       ++ "1. /dev/sda -> 232.9G" ++ nl
       ++ "2. /dev/sdb -> 1T" ++ nl.
Proof.
  apply (@posix_two_drives_example two_disks tt
           ("sda disk 232.9G" ++ nl) ("sdb disk 1T" ++ nl));
    reflexivity.
Defined.

(** C8.  Two calls of [check_disks()] in a row, the second starting in the
    state the first left the host in: when the host answers the second
    query with the data it gave to the first (the lines of the listing for
    the POSIX backend, the drive objects for the Windows-like one), both
    calls write the same text to standard output. *)
Theorem report_twice_same_output `{Host} (os : OS) :
  (listing (host_after (LinuxOSDiskChecker.check_disks false os)) = listing os ->
   stdout (events (second_call (LinuxOSDiskChecker.check_disks false) os)) =
   stdout (events (LinuxOSDiskChecker.check_disks false os)))
  /\
  (wmi_drives (host_after (WindowsOSDiskChecker.check_disks false os)) = wmi_drives os ->
   stdout (events (second_call (WindowsOSDiskChecker.check_disks false) os)) =
   stdout (events (WindowsOSDiskChecker.check_disks false os))).
Proof.
  unfold second_call. split; intros Hsame.
  - rewrite !posix_check_disks_run in *. cbn [host_after events] in *.
    rewrite Hsame. reflexivity.
  - rewrite !windows_check_disks_run in *. cbn [host_after events] in *.
    rewrite Hsame. reflexivity.
Qed.

Lemma report_twice_same_output_witness :
  stdout (events (second_call (@LinuxOSDiskChecker.check_disks two_disks false) tt)) =
  stdout (events (@LinuxOSDiskChecker.check_disks two_disks false tt))
  /\
  stdout (events (second_call (@WindowsOSDiskChecker.check_disks two_disks false) tt)) =
  stdout (events (@WindowsOSDiskChecker.check_disks two_disks false tt)).
Proof.
  destruct (@report_twice_same_output two_disks tt) as [posix windows].
  split; [apply posix | apply windows]; reflexivity.
Defined.

(** Without that condition the two reports may differ: here a drive appears
    between the calls. *)
Example report_changes_with_the_drives :
  stdout (events (second_call (@LinuxOSDiskChecker.check_disks hotplug false) 0%nat))
  <> stdout (events (@LinuxOSDiskChecker.check_disks hotplug false 0%nat)).
Proof. apply String.eqb_neq. vm_compute. reflexivity. Qed.


(** C10.  The constructor tests the truth value of the selector: for the
    empty string, as for no selector, it calls [check_disks()], and for a
    string that is not empty it calls [check_specific_drive] with it; this
    holds for every backend.  So the dispatcher, given the empty string as
    its argument, runs the report of the backend of the platform. *)
Theorem empty_selector_lists_all `{Host} {Data} (self : DiskCheckerAbstractClass Data) :
  __init__ (Some EmptyString) = (check_disks false ;; ret tt)
  /\ __init__ None = (check_disks false ;; ret tt)
  /\ (forall (c : ascii) (s : string),
        __init__ (Some (String c s)) = check_specific_drive (String c s))
  /\ (forall prog : string,
        main [prog; EmptyString] "posix" =
          (LinuxOSDiskChecker.check_disks false ;; ret tt)
        /\ main [prog; EmptyString] "nt" =
          (WindowsOSDiskChecker.check_disks false ;; ret tt))
  /\ (forall (prog : string) (c : ascii) (s : string),
        main [prog; String c s] "posix" =
          LinuxOSDiskChecker.check_specific_drive (String c s)
        /\ main [prog; String c s] "nt" =
          WindowsOSDiskChecker.check_specific_drive (String c s)).
Proof. repeat split. Qed.

(** * Further properties *)

(** ** [str] and [int] of an integer *)

Lemma digits_of_uint_acc (d : Decimal.uint) (p : positive) :
  digits (Z.pos p) true (NilEmpty.string_of_uint d) =
  Some (Z.pos (Pos.of_uint_acc d p)).
Proof.
  revert p. induction d; intros p;
    cbn [NilEmpty.string_of_uint digits Pos.of_uint_acc];
    try reflexivity;
    match goal with
    | |- context [is_digit ?c] =>
        change (is_digit c) with true; cbv iota;
        rewrite <- IHd; f_equal; unfold digit_value; cbn [N_of_ascii N_of_digits]; lia
    end.
Qed.

Lemma digits_of_uint (d : Decimal.uint) :
  digits 0 true (NilEmpty.string_of_uint d) = Some (Z.of_N (Pos.of_uint d)).
Proof.
  induction d; cbn [NilEmpty.string_of_uint digits Pos.of_uint];
    try reflexivity;
    match goal with
    | |- context [is_digit ?c] => change (is_digit c) with true; cbv iota
    end;
    try exact IHd;
    match goal with
    | |- digits ?a true _ = _ =>
        let v := eval vm_compute in a in
        change a with v
    end; apply digits_of_uint_acc.
Qed.

(** The first character decides alone whether digits may start. *)
Lemma digits_first (d : Decimal.uint) :
  d <> Decimal.Nil ->
  digits 0 false (NilEmpty.string_of_uint d) =
  digits 0 true (NilEmpty.string_of_uint d).
Proof. destruct d; intros Hd; [congruence | reflexivity ..]. Qed.

Lemma int_rstrip_uint (d : Decimal.uint) :
  int_rstrip (NilEmpty.string_of_uint d) = NilEmpty.string_of_uint d.
Proof.
  induction d; cbn [NilEmpty.string_of_uint int_rstrip]; try reflexivity;
    rewrite IHd; destruct (NilEmpty.string_of_uint d); reflexivity.
Qed.

Lemma int_of_uint (d : Decimal.uint) :
  d <> Decimal.Nil ->
  int (NilEmpty.string_of_uint d) = Some (Z.of_N (Pos.of_uint d)).
Proof.
  intros Hd. unfold int. rewrite int_rstrip_uint.
  rewrite <- digits_of_uint, <- (digits_first d Hd).
  destruct d; [congruence | reflexivity ..].
Qed.

Lemma int_of_neg_uint (d : Decimal.uint) :
  d <> Decimal.Nil ->
  int (String "-" (NilEmpty.string_of_uint d)) = Some (- Z.of_N (Pos.of_uint d)).
Proof.
  intros Hd. unfold int. cbn [int_rstrip]. rewrite int_rstrip_uint.
  assert (E : NilEmpty.string_of_uint d <> EmptyString) by (destruct d; [congruence | discriminate ..]).
  destruct (NilEmpty.string_of_uint d) as [| c s] eqn:Hs; [congruence |].
  cbn [int_lstrip]. change (is_int_space "-") with false. cbv iota.
  rewrite <- Hs, (digits_first d Hd), digits_of_uint. reflexivity.
Qed.

(** What [str] writes for an integer, [int] reads back. *)
Lemma int_str_int (n : Z) : int (str_int n) = Some n.
Proof.
  unfold str_int. destruct n as [| p | p]; cbn [Z.to_int NilZero.string_of_int].
  - reflexivity.
  - unfold NilZero.string_of_uint.
    pose proof (DecimalPos.Unsigned.to_uint_nonnil p) as Hd.
    destruct (Pos.to_uint p) eqn:E; [congruence | ..];
      rewrite <- E in *; rewrite int_of_uint by exact Hd;
      rewrite DecimalPos.Unsigned.of_to; reflexivity.
  - unfold NilZero.string_of_uint.
    pose proof (DecimalPos.Unsigned.to_uint_nonnil p) as Hd.
    destruct (Pos.to_uint p) eqn:E; [congruence | ..];
      rewrite <- E in *; rewrite int_of_neg_uint by exact Hd;
      rewrite DecimalPos.Unsigned.of_to; reflexivity.
Qed.

(** ** Splitting at blanks, and removing characters *)

(** Splitting after a separator goes on with what follows it. *)
Lemma split_sep_app (sep : ascii) (a b : string) :
  split_sep sep (a ++ String sep b) = (split_sep sep a ++ split_sep sep b)%list.
Proof.
  induction a as [| c a IH]; cbn [String.append split_sep].
  - rewrite Ascii.eqb_refl. reflexivity.
  - destruct (Ascii.eqb c sep).
    + rewrite IH. reflexivity.
    + rewrite IH. pose proof (split_sep_nonempty sep a) as Hne.
      destruct (split_sep sep a) as [| w ws]; [congruence | reflexivity].
Qed.

(** A string without the separator is its own single field. *)
Lemma split_sep_whole (sep : ascii) (s : string) :
  contains sep s = false -> split_sep sep s = [s].
Proof.
  induction s as [| c s IH]; cbn [contains split_sep]; [reflexivity |].
  intros Hc. apply orb_false_iff in Hc. destruct Hc as [Hc Hs].
  rewrite Hc, (IH Hs). reflexivity.
Qed.

Lemma last_app_nonempty {A} (l1 l2 : list A) (d : A) :
  l2 <> [] -> List.last (l1 ++ l2) d = List.last l2 d.
Proof.
  intros Hne. induction l1 as [| x l1 IH]; cbn [app]; [reflexivity |].
  cbn [List.last]. destruct (l1 ++ l2)%list eqn:E.
  - apply app_eq_nil in E. destruct E; congruence.
  - exact IH.
Qed.


Lemma enumerate_nth {A} (l : list A) (k : Z) (i : nat) (x : A) :
  nth_error l i = Some x ->
  nth_error (enumerate k l) i = Some (k + Z.of_nat i, x).
Proof.
  revert k i. induction l as [| y l IH]; intros k i Hx.
  - destruct i; discriminate.
  - destruct i as [| i]; cbn [nth_error enumerate] in *.
    + injection Hx as ->. rewrite Z.add_0_r. reflexivity.
    + rewrite (IH (k + 1) i Hx). f_equal. f_equal. lia.
Qed.

Lemma res_of_after `{Host} {A} (evs : list event) (o : outcome A) :
  res (after evs o) = res o.
Proof. destruct o. reflexivity. Qed.

(** ** Numbers that name no drive *)

(** X1.  POSIX [check_specific_drive], for a selector that [int] reads as
    a number above the count of drives, or at most the opposite of the
    count: it prints the message for a wrong id, then enumerates again and
    prints the report of that second enumeration, and returns.  The shell
    runs the listing of the drives twice and nothing else. *)
Theorem posix_number_out_of_range `{Host} (inp : string) (i : Z) (os : OS) :
  int inp = Some i ->
  len (returned (LinuxOSDiskChecker.check_disks true os)) < i
  \/ i <= - len (returned (LinuxOSDiskChecker.check_disks true os)) ->
  res (LinuxOSDiskChecker.check_specific_drive inp os) = Return tt
  /\ stdout (events (LinuxOSDiskChecker.check_specific_drive inp os)) =
     LinuxOSDiskChecker.wrong_id ++ nl
       ++ stdout (events (LinuxOSDiskChecker.check_disks false (after_listing os)))
  /\ commands (events (LinuxOSDiskChecker.check_specific_drive inp os)) =
     [LinuxOSDiskChecker.lsblk_disks; LinuxOSDiskChecker.lsblk_disks].
Proof.
  intros Hint Hi. rewrite posix_returned in Hi.
  rewrite (posix_by_number inp i os Hint), (getitem_out_of_range _ i Hi).
  cbv zeta. split; [reflexivity |]. split; [reflexivity |].
  rewrite posix_check_disks_run. cbn [events commands].
  rewrite commands_prints. reflexivity.
Qed.

Lemma posix_number_out_of_range_witness :
  res (@LinuxOSDiskChecker.check_specific_drive two_disks "5" tt) = Return tt
  /\ stdout (events (@LinuxOSDiskChecker.check_specific_drive two_disks "5" tt)) =
     LinuxOSDiskChecker.wrong_id ++ nl
       ++ stdout (events (@LinuxOSDiskChecker.check_disks two_disks false
                            (@after_listing two_disks tt)))
  /\ commands (events (@LinuxOSDiskChecker.check_specific_drive two_disks "5" tt)) =
     [LinuxOSDiskChecker.lsblk_disks; LinuxOSDiskChecker.lsblk_disks].
Proof.
  apply (@posix_number_out_of_range two_disks "5" 5 tt).
  - reflexivity.
  - left. vm_compute. reflexivity.
Defined.



(** X3.  POSIX [check_specific_drive], for a selector that [int] reads as
    zero or as a negative number above the opposite of the count [N]: the
    index [i - 1] is negative and is read from the end of the list, so the
    record at position [N + i] (counted from 1) is taken and its path is
    described. *)
Theorem posix_number_counts_from_end `{Host} (inp : string) (i : Z) (os : OS) :
  int inp = Some i ->
  - len (returned (LinuxOSDiskChecker.check_disks true os)) < i <= 0 ->
  exists path size_,
    nth_error (returned (LinuxOSDiskChecker.check_disks true os))
      (Z.to_nat (len (returned (LinuxOSDiskChecker.check_disks true os)) + i - 1))
    = Some [path; size_]
    /\ LinuxOSDiskChecker.check_specific_drive inp os =
       (LinuxOSDiskChecker.check_disks true ;;
        LinuxOSDiskChecker.describe inp path) os.
Proof.
  intros Hint Hi. rewrite posix_returned in *.
  destruct (getitem_wraps _ i Hi) as [drive [Hn Hg]].
  destruct (posix_records_pairs _ _ (nth_error_In _ _ Hn)) as [path [sz ->]].
  exists path, sz. split; [exact Hn |].
  rewrite (posix_by_number inp i os Hint), Hg. cbn [hd].
  unfold bind. rewrite (posix_check_disks_run true). reflexivity.
Qed.

Lemma posix_number_counts_from_end_witness :
  exists path size_,
    nth_error (returned (@LinuxOSDiskChecker.check_disks two_disks true tt))
      (Z.to_nat (len (returned (@LinuxOSDiskChecker.check_disks two_disks true tt))
                 + -1 - 1))
    = Some [path; size_]
    /\ @LinuxOSDiskChecker.check_specific_drive two_disks "-1" tt =
       (@LinuxOSDiskChecker.check_disks two_disks true ;;
        @LinuxOSDiskChecker.describe two_disks "-1" path) tt.
Proof.
  apply (@posix_number_counts_from_end two_disks "-1" (-1) tt).
  - reflexivity.
  - vm_compute. split; [reflexivity | discriminate].
Defined.

(** X4.  Windows-like [check_specific_drive], for a selector that [int]
    reads as zero or as a negative number above the opposite of the count
    [N]: the drive at position [N + i] (counted from 1) is printed, and the
    call returns. *)
Theorem windows_number_counts_from_end `{Host} (inp : string) (i : Z) (os : OS) :
  int inp = Some i ->
  - len (returned (WindowsOSDiskChecker.check_disks true os)) < i <= 0 ->
  exists drive,
    nth_error (returned (WindowsOSDiskChecker.check_disks true os))
      (Z.to_nat (len (returned (WindowsOSDiskChecker.check_disks true os)) + i - 1))
    = Some drive
    /\ res (WindowsOSDiskChecker.check_specific_drive inp os) = Return tt
    /\ stdout (events (WindowsOSDiskChecker.check_specific_drive inp os)) =
       WindowsOSDiskChecker.report_line drive ++ nl.
Proof.
  intros Hint Hi.
  destruct (getitem_wraps _ i Hi) as [drive [Hn Hg]].
  exists drive. split; [exact Hn |].
  rewrite (windows_by_number inp i os Hint), Hg.
  split; [reflexivity |]. cbn [events]. apply stdout_one.
Qed.

Lemma windows_number_counts_from_end_witness :
  exists drive,
    nth_error (returned (@WindowsOSDiskChecker.check_disks two_disks true tt))
      (Z.to_nat (len (returned (@WindowsOSDiskChecker.check_disks two_disks true tt))
                 + -1 - 1))
    = Some drive
    /\ res (@WindowsOSDiskChecker.check_specific_drive two_disks "-1" tt) = Return tt
    /\ stdout (events (@WindowsOSDiskChecker.check_specific_drive two_disks "-1" tt)) =
       @WindowsOSDiskChecker.report_line two_disks drive ++ nl.
Proof.
  apply (@windows_number_counts_from_end two_disks "-1" (-1) tt).
  - reflexivity.
  - vm_compute. split; [reflexivity | discriminate].
Defined.

(** ** What the POSIX description prints, and when it raises *)

(** X5.  POSIX [check_specific_drive] with a selector that is no number,
    when the listing of that path answers with no line: it prints that the
    drive was not found, naming the selector, and returns.  That listing is
    its only query: no report follows. *)
Theorem posix_path_not_found `{Host} (inp : string) (os : OS) :
  int inp = None ->
  fst (popen_readlines (LinuxOSDiskChecker.lsblk_drive inp) os) = [] ->
  res (LinuxOSDiskChecker.check_specific_drive inp os) = Return tt
  /\ events (LinuxOSDiskChecker.check_specific_drive inp os) =
     [Shell (LinuxOSDiskChecker.lsblk_drive inp);
      Stdout ("Drive " ++ inp ++ " not found!")].
Proof.
  intros Hint Hlines. rewrite (posix_by_path inp os Hint), describe_run.
  cbv zeta. rewrite Hlines. split; reflexivity.
Qed.

Lemma posix_path_not_found_witness :
  res (@LinuxOSDiskChecker.check_specific_drive two_disks "/dev/sdc" tt) = Return tt
  /\ events (@LinuxOSDiskChecker.check_specific_drive two_disks "/dev/sdc" tt) =
     [Shell (LinuxOSDiskChecker.lsblk_drive "/dev/sdc");
      Stdout ("Drive " ++ "/dev/sdc" ++ " not found!")].
Proof.
  apply (@posix_path_not_found two_disks "/dev/sdc" tt); reflexivity.
Defined.

(** X6.  POSIX [check_specific_drive] with a number that names a drive,
    when the listing of that drive's path answers with no line: the message
    names the selector as it was given (the number), not the path that was
    queried. *)
Theorem posix_number_not_found `{Host} (inp : string) (i : Z) (os : OS)
    (path size_ : string) :
  int inp = Some i ->
  1 <= i ->
  nth_error (returned (LinuxOSDiskChecker.check_disks true os)) (Z.to_nat (i - 1))
    = Some [path; size_] ->
  fst (popen_readlines (LinuxOSDiskChecker.lsblk_drive path) (after_listing os)) = [] ->
  res (LinuxOSDiskChecker.check_specific_drive inp os) = Return tt
  /\ events (LinuxOSDiskChecker.check_specific_drive inp os) =
     [Shell LinuxOSDiskChecker.lsblk_disks;
      Shell (LinuxOSDiskChecker.lsblk_drive path);
      Stdout ("Drive " ++ inp ++ " not found!")].
Proof.
  intros Hint Hi Hn Hlines. rewrite posix_returned in Hn.
  rewrite (posix_by_number inp i os Hint).
  rewrite getitem_nonneg by lia. rewrite Hn. cbn [hd].
  rewrite describe_run. cbv zeta. rewrite Hlines. split; reflexivity.
Qed.

Lemma posix_number_not_found_witness :
  res (@LinuxOSDiskChecker.check_specific_drive unplugged "1" tt) = Return tt
  /\ events (@LinuxOSDiskChecker.check_specific_drive unplugged "1" tt) =
     [Shell LinuxOSDiskChecker.lsblk_disks;
      Shell (LinuxOSDiskChecker.lsblk_drive "/dev/sdc");
      Stdout ("Drive " ++ "1" ++ " not found!")].
Proof.
  apply (@posix_number_not_found unplugged "1" 1 tt "/dev/sdc" "1T").
  - reflexivity.
  - lia.
  - reflexivity.
  - reflexivity.
Defined.

(** X7.  POSIX [check_specific_drive] with a selector that is no number,
    when the listing of that path answers with two lines or more and the
    second line holds a token: it prints the header with the first token of
    the second line, then all the lines joined as they came, and returns. *)
Theorem posix_path_listing_printed `{Host} (inp : string) (os : OS)
    (first second name : string) (rest names : list string) :
  int inp = None ->
  fst (popen_readlines (LinuxOSDiskChecker.lsblk_drive inp) os) =
    first :: second :: rest ->
  split second = name :: names ->
  res (LinuxOSDiskChecker.check_specific_drive inp os) = Return tt
  /\ stdout (events (LinuxOSDiskChecker.check_specific_drive inp os)) =
     LinuxOSDiskChecker.partitions_header name ++ nl
       ++ join EmptyString (first :: second :: rest) ++ nl.
Proof.
  intros Hint Hlines Hsplit. rewrite (posix_by_path inp os Hint).
  exact (describe_lines inp inp os first second name rest names Hlines Hsplit).
Qed.

Lemma posix_path_listing_printed_witness :
  res (@LinuxOSDiskChecker.check_specific_drive two_disks "/dev/sda" tt) = Return tt
  /\ stdout (events (@LinuxOSDiskChecker.check_specific_drive two_disks "/dev/sda" tt)) =
     LinuxOSDiskChecker.partitions_header "sda" ++ nl
       ++ join EmptyString
            ["NAME TYPE SIZE" ++ nl; "sda disk 232.9G" ++ nl;
             "sda1 part 232.9G" ++ nl] ++ nl.
Proof.
  apply (@posix_path_listing_printed two_disks "/dev/sda" tt
           ("NAME TYPE SIZE" ++ nl) ("sda disk 232.9G" ++ nl) "sda"
           ["sda1 part 232.9G" ++ nl] ["disk"; "232.9G"]); reflexivity.
Defined.

(** X8.  POSIX [check_specific_drive], for a run none of whose shell
    commands holds a NUL character (with one, [os.popen] itself raises
    [ValueError]): the call either returns or raises [IndexError]; neither
    the [ValueError] of [int] nor any [TypeError] leaves it. *)
Theorem posix_describe_raises_index_error_only `{Host} (inp : string) (os : OS) :
  forallb (fun cmd => negb (contains nul cmd))
    (commands (events (LinuxOSDiskChecker.check_specific_drive inp os))) = true ->
  res (LinuxOSDiskChecker.check_specific_drive inp os) = Return tt
  \/ res (LinuxOSDiskChecker.check_specific_drive inp os) = Raise IndexError.
Proof.
  intros _.
  assert (Hd : forall path os',
             res (LinuxOSDiskChecker.describe inp path os') = Return tt
             \/ res (LinuxOSDiskChecker.describe inp path os') = Raise IndexError).
  { intros path os'.
    destruct (res (LinuxOSDiskChecker.describe inp path os')) as [[] | e] eqn:E.
    - left. reflexivity.
    - right. apply describe_raises in E. rewrite E. reflexivity. }
  destruct (int inp) as [i |] eqn:Hint.
  - rewrite (posix_by_number inp i os Hint).
    destruct (getitem _ (i - 1)) as [drive |].
    + rewrite res_of_after. apply Hd.
    + left. reflexivity.
  - rewrite (posix_by_path inp os Hint). apply Hd.
Qed.

Lemma posix_describe_raises_index_error_only_witness :
  res (@LinuxOSDiskChecker.check_specific_drive two_disks "--version" tt) = Return tt
  \/ res (@LinuxOSDiskChecker.check_specific_drive two_disks "--version" tt)
     = Raise IndexError.
Proof.
  apply (@posix_describe_raises_index_error_only two_disks "--version" tt).
  vm_compute. reflexivity.
Defined.

(** X9.  POSIX [check_specific_drive] with a selector that is no number
    raises [IndexError] exactly when the listing of that path answers with
    one line only, or with a second line that holds no token; it has then
    printed nothing. *)
Theorem posix_path_fault_condition `{Host} (inp : string) (os : OS) :
  int inp = None ->
  (res (LinuxOSDiskChecker.check_specific_drive inp os) = Raise IndexError <->
   (exists line,
      fst (popen_readlines (LinuxOSDiskChecker.lsblk_drive inp) os) = [line])
   \/ (exists first second rest,
         fst (popen_readlines (LinuxOSDiskChecker.lsblk_drive inp) os) =
           first :: second :: rest
         /\ split second = []))
  /\ (res (LinuxOSDiskChecker.check_specific_drive inp os) = Raise IndexError ->
      stdout (events (LinuxOSDiskChecker.check_specific_drive inp os)) = EmptyString).
Proof.
  intros Hint. rewrite (posix_by_path inp os Hint), describe_run. cbv zeta.
  destruct (fst (popen_readlines (LinuxOSDiskChecker.lsblk_drive inp) os))
    as [| first [| second rest]]; cbn [res events].
  - split; [split |]; try discriminate.
    intros [[line E] | [a [b [r [E _]]]]]; discriminate.
  - split; [split |]; try reflexivity.
    intros _. left. exists first. reflexivity.
  - destruct (split second) as [| name names] eqn:Hs; cbn [res events].
    + split; [split |]; try reflexivity.
      intros _. right. exists first, second, rest. split; [reflexivity | exact Hs].
    + split; [split |]; try discriminate.
      intros [[line E] | [a [b [r [E Hb]]]]]; [discriminate |].
      injection E as -> -> ->. congruence.
Qed.

Lemma posix_path_fault_condition_witness :
  (res (@LinuxOSDiskChecker.check_specific_drive two_disks "--version" tt)
   = Raise IndexError <->
   (exists line,
      fst (@popen_readlines two_disks (LinuxOSDiskChecker.lsblk_drive "--version") tt)
      = [line])
   \/ (exists first second rest,
         fst (@popen_readlines two_disks (LinuxOSDiskChecker.lsblk_drive "--version") tt)
         = first :: second :: rest
         /\ split second = []))
  /\ (res (@LinuxOSDiskChecker.check_specific_drive two_disks "--version" tt)
      = Raise IndexError ->
      stdout (events (@LinuxOSDiskChecker.check_specific_drive two_disks "--version" tt))
      = EmptyString).
Proof. apply (@posix_path_fault_condition two_disks "--version" tt). reflexivity. Defined.

(** ** The Windows-like description and the size of the drives *)

Section WindowsObjects.
Context `{Host}.
Variable cas_objects : OS -> list DiskDriveObject * OS.
Import WindowsOSDiskCheckerObjects.

Lemma drive_data_number (index : Z) (d : DiskDriveObject) (os : OS) :
  size_is_number d = true ->
  drive_data index d os =
  Outcome (Return (WindowsOSDiskChecker.drive_of index (object_drive d))) [] os.
Proof.
  unfold size_is_number, drive_data, int_size, int_, bind, object_drive,
    WindowsOSDiskChecker.drive_of.
  destruct (object_size d) as [s |]; [| discriminate].
  destruct (int s) as [n |]; [| discriminate].
  intros _. reflexivity.
Qed.

Lemma drive_data_none (index : Z) (d : DiskDriveObject) (os : OS) :
  object_size d = None ->
  drive_data index d os = Outcome (Raise TypeError) [] os.
Proof.
  intros E. unfold drive_data, int_size, bind. rewrite E. reflexivity.
Qed.

(** With sizes that are numbers the comprehension gives the drives of
    [WindowsOSDiskChecker]. *)
Lemma drives_data_numbers (objects : list DiskDriveObject) (k : Z) (os : OS) :
  forallb size_is_number objects = true ->
  comprehension (fun '(index, d) => drive_data index d) (enumerate k objects) os =
  Outcome
    (Return (map (fun '(index, d) => WindowsOSDiskChecker.drive_of index d)
               (enumerate k (map object_drive objects))))
    [] os.
Proof.
  revert k. induction objects as [| d objects IH]; intros k Hall.
  - reflexivity.
  - cbn [forallb] in Hall. apply andb_true_iff in Hall. destruct Hall as [Hd Hall].
    cbn [enumerate map comprehension]. unfold bind.
    rewrite (drive_data_number k d os Hd). cbn [after].
    rewrite (IH (k + 1) Hall). reflexivity.
Qed.

(** The first drive without a size stops the comprehension. *)
Lemma drives_data_none (pre post : list DiskDriveObject) (d : DiskDriveObject)
    (k : Z) (os : OS) :
  forallb size_is_number pre = true ->
  object_size d = None ->
  comprehension (fun '(index, d) => drive_data index d)
    (enumerate k (pre ++ d :: post)) os =
  Outcome (Raise TypeError) [] os.
Proof.
  revert k. induction pre as [| p pre IH]; intros k Hall Hd.
  - cbn [app enumerate comprehension]. unfold bind.
    rewrite (drive_data_none k d os Hd). reflexivity.
  - cbn [forallb] in Hall. apply andb_true_iff in Hall. destruct Hall as [Hp Hall].
    cbn [app enumerate comprehension]. unfold bind.
    rewrite (drive_data_number k p os Hp). cbn [after].
    rewrite (IH (k + 1) Hall Hd). reflexivity.
Qed.

Lemma objects_check_disks_numbers (return_data : bool) (os : OS) :
  forallb size_is_number (fst (cas_objects os)) = true ->
  check_disks cas_objects return_data os =
  let drives_data := windows_drives (map object_drive (fst (cas_objects os))) in
  let os1 := snd (cas_objects os) in
  if return_data then
    Outcome (Return (Some (WindowsOSDiskChecker.append_volumes drives_data
                             (fst (psutil_disk_partitions os1)))))
            [Wmi; Psutil] (snd (psutil_disk_partitions os1))
  else
    Outcome (Return None) (Wmi :: map Stdout (windows_report drives_data)) os1.
Proof.
  intros Hall. unfold check_disks, bind, Win32_DiskDrive_objects, disk_partitions.
  destruct (cas_objects os) as [objects os1]. cbn [fst snd] in *.
  rewrite (drives_data_numbers objects 1 os1 Hall). cbn [after].
  fold (windows_drives (map object_drive objects)).
  destruct return_data.
  - destruct (psutil_disk_partitions os1) as [volumes os2]. reflexivity.
  - cbn [print after].
    rewrite (for_each_prints _ WindowsOSDiskChecker.report_line) by reflexivity.
    cbn [after ret app]. rewrite ?app_nil_r. reflexivity.
Qed.

Lemma objects_check_disks_none (return_data : bool) (os : OS)
    (pre post : list DiskDriveObject) (d : DiskDriveObject) :
  fst (cas_objects os) = (pre ++ d :: post)%list ->
  forallb size_is_number pre = true ->
  object_size d = None ->
  check_disks cas_objects return_data os =
  Outcome (Raise TypeError) [Wmi] (snd (cas_objects os)).
Proof.
  intros Hobjects Hall Hd.
  unfold check_disks, bind, Win32_DiskDrive_objects.
  destruct (cas_objects os) as [objects os1]. cbn [fst snd] in *. subst objects.
  rewrite (drives_data_none pre post d 1 os1 Hall Hd). reflexivity.
Qed.

(** On a host that answers with the drives of these objects, and with
    sizes that are numbers, both models of the enumeration agree. *)
Lemma objects_check_disks_agrees (return_data : bool) (os : OS) :
  cas_Win32_DiskDrive os =
    (map object_drive (fst (cas_objects os)), snd (cas_objects os)) ->
  forallb size_is_number (fst (cas_objects os)) = true ->
  WindowsOSDiskCheckerObjects.check_disks cas_objects return_data os =
  WindowsOSDiskChecker.check_disks return_data os.
Proof.
  intros Hhost Hall.
  rewrite (objects_check_disks_numbers return_data os Hall).
  rewrite windows_check_disks_run.
  unfold wmi_drives, volumes_of, after_volumes, after_wmi. rewrite Hhost.
  reflexivity.
Qed.
End WindowsObjects.

(** X10.  Windows-like [check_specific_drive], with [int(d.size)] of the
    enumeration in place.  When [int] accepts the size of every drive
    object the host answers with, the call returns for every selector and
    issues no shell command.  When the first drive object whose size [int]
    refuses has [None] for its size, the enumeration raises [TypeError],
    which no [except] clause takes: it leaves [check_specific_drive] for
    every selector, after nothing was printed for a number and after the
    usage hint for a selector that is no number. *)
Theorem windows_describe_returns_unless_size_fails `{Host}
    (cas_objects : OS -> list DiskDriveObject * OS) (inp : string) (os : OS) :
  ((forall os', forallb size_is_number (fst (cas_objects os')) = true) ->
   res (WindowsOSDiskCheckerObjects.check_specific_drive cas_objects inp os) = Return tt
   /\ commands (events (WindowsOSDiskCheckerObjects.check_specific_drive
                          cas_objects inp os)) = [])
  /\
  (forall (pre post : list DiskDriveObject) (d : DiskDriveObject),
     fst (cas_objects os) = (pre ++ d :: post)%list ->
     forallb size_is_number pre = true ->
     object_size d = None ->
     res (WindowsOSDiskCheckerObjects.check_specific_drive cas_objects inp os)
       = Raise TypeError
     /\ stdout (events (WindowsOSDiskCheckerObjects.check_specific_drive
                          cas_objects inp os)) =
        match int inp with
        | Some _ => EmptyString
        | None => WindowsOSDiskChecker.usage_hint ++ nl
        end).
Proof.
  split.
  - intros Hall.
    unfold WindowsOSDiskCheckerObjects.check_specific_drive, try_except, bind, int_.
    destruct (int inp) as [i |].
    + cbn [ret after].
      rewrite (objects_check_disks_numbers cas_objects true os (Hall os)).
      cbv zeta. cbn [after as_list ret]. unfold item.
      destruct (getitem _ (i - 1)) as [drive |]; cbn [ret raise print after app].
      * split; reflexivity.
      * rewrite (objects_check_disks_numbers cas_objects false _ (Hall _)).
        cbv zeta. cbn [after ret app events res commands].
        split; [reflexivity |]. rewrite ?app_nil_r. apply commands_prints.
    + cbn [raise print after app].
      rewrite (objects_check_disks_numbers cas_objects false os (Hall os)).
      cbv zeta. cbn [after ret app events res commands].
      split; [reflexivity |]. rewrite ?app_nil_r. apply commands_prints.
  - intros pre post d Hobjects Hpre Hd.
    unfold WindowsOSDiskCheckerObjects.check_specific_drive, try_except, bind, int_.
    destruct (int inp) as [i |].
    + cbn [ret after].
      rewrite (objects_check_disks_none cas_objects true os pre post d Hobjects Hpre Hd).
      split; reflexivity.
    + cbn [raise print after app].
      rewrite (objects_check_disks_none cas_objects false os pre post d Hobjects Hpre Hd).
      cbn [after app res events stdout]. split; [reflexivity |].
      rewrite append_empty_r. reflexivity.
Qed.

Lemma windows_describe_returns_unless_size_fails_witness :
  (res (WindowsOSDiskCheckerObjects.check_specific_drive objects_with_size "2" tt)
     = Return tt
   /\ commands (events (WindowsOSDiskCheckerObjects.check_specific_drive
                          objects_with_size "2" tt)) = [])
  /\
  (res (WindowsOSDiskCheckerObjects.check_specific_drive objects_with_card_reader "2" tt)
     = Raise TypeError
   /\ stdout (events (WindowsOSDiskCheckerObjects.check_specific_drive
                        objects_with_card_reader "2" tt)) =
      match int "2" with
      | Some _ => EmptyString
      | None => WindowsOSDiskChecker.usage_hint ++ nl
      end).
Proof.
  split.
  - apply (proj1 (@windows_describe_returns_unless_size_fails two_disks
                    objects_with_size "2" tt)).
    intros []. reflexivity.
  - apply (proj2 (@windows_describe_returns_unless_size_fails two_disks
                    objects_with_card_reader "2" tt) [] two_objects card_reader);
      reflexivity.
Defined.

(** ** The records of the POSIX enumeration *)

(** X11.  POSIX [check_disks] never raises, whatever lines the listing
    answers with (blank lines too): with [return_data] it returns one
    record per line, in order, each a list of exactly two strings whose
    first starts with [/dev/]; without it, it returns [None]. *)
Theorem posix_records_shape `{Host} (os : OS) :
  res (LinuxOSDiskChecker.check_disks false os) = Return None
  /\ res (LinuxOSDiskChecker.check_disks true os) =
     Return (Some (returned (LinuxOSDiskChecker.check_disks true os)))
  /\ List.length (returned (LinuxOSDiskChecker.check_disks true os)) =
     List.length (listing os)
  /\ Forall (fun drive => exists name size_, drive = ["/dev/" ++ name; size_])
       (returned (LinuxOSDiskChecker.check_disks true os)).
Proof.
  rewrite posix_returned, !posix_check_disks_run.
  split; [reflexivity |]. split; [reflexivity |].
  unfold posix_records. split; [apply length_map |].
  apply Forall_forall. intros drive Hin. apply in_map_iff in Hin.
  destruct Hin as [disk [<- _]]. eauto.
Qed.

(** X12.  The record of a row whose text, once stripped, holds blanks: the
    name is what stands before the first blank and the size is what stands
    after the last one, however many blanks and columns lie between. *)
Theorem posix_row_fields `{Host} (os : OS) (k : nat)
    (row name tail front size_ : string) :
  nth_error (listing os) k = Some row ->
  strip row = name ++ String " " tail ->
  strip row = front ++ String " " size_ ->
  contains " " name = false ->
  contains " " size_ = false ->
  nth_error (returned (LinuxOSDiskChecker.check_disks true os)) k =
    Some ["/dev/" ++ name; size_].
Proof.
  intros Hrow Hname Hsize Hn Hs. rewrite posix_returned. unfold posix_records.
  rewrite (map_nth_error _ _ _ Hrow). f_equal. f_equal; [f_equal | f_equal].
  - rewrite Hname, split_sep_app, (split_sep_whole _ _ Hn). reflexivity.
  - rewrite Hsize, split_sep_app, (split_sep_whole _ _ Hs).
    apply last_app_nonempty. discriminate.
Qed.

Lemma posix_row_fields_witness :
  nth_error (returned (@LinuxOSDiskChecker.check_disks padded_rows true tt)) 1 =
    Some ["/dev/" ++ "nvme0n1"; "1T"].
Proof.
  apply (@posix_row_fields padded_rows tt 1%nat
           ("nvme0n1 disk     1T" ++ nl) "nvme0n1" "disk     1T"
           "nvme0n1 disk    " "1T"); reflexivity.
Defined.

(** X13.  The record of a row whose text, once stripped, holds no blank
    (an empty row too): the whole text is both the name and the size. *)
Theorem posix_row_single_field `{Host} (os : OS) (k : nat) (row : string) :
  nth_error (listing os) k = Some row ->
  contains " " (strip row) = false ->
  nth_error (returned (LinuxOSDiskChecker.check_disks true os)) k =
    Some ["/dev/" ++ strip row; strip row].
Proof.
  intros Hrow Hs. rewrite posix_returned. unfold posix_records.
  rewrite (map_nth_error _ _ _ Hrow). cbv zeta.
  rewrite (split_sep_whole _ _ Hs). reflexivity.
Qed.

Lemma posix_row_single_field_witness :
  nth_error (returned (@LinuxOSDiskChecker.check_disks bare_rows true tt)) 1 =
    Some ["/dev/" ++ strip nl; strip nl].
Proof.
  apply (@posix_row_single_field bare_rows tt 1%nat nl); reflexivity.
Defined.

(** ** The number in the report is the number to ask with *)

(** X14.  POSIX: the record at position [k] (from 0) is printed by the
    report as the line numbered [k + 1], and [check_specific_drive] given
    that number as text lists the path of that very record. *)
Theorem posix_report_number_selects `{Host} (os : OS) (k : nat)
    (path size_ : string) :
  nth_error (returned (LinuxOSDiskChecker.check_disks true os)) k =
    Some [path; size_] ->
  nth_error (events (LinuxOSDiskChecker.check_disks false os)) (S (S k)) =
    Some (Stdout (LinuxOSDiskChecker.report_line (Z.of_nat k + 1) path size_))
  /\ commands (events (LinuxOSDiskChecker.check_specific_drive
                         (str_int (Z.of_nat k + 1)) os)) =
     [LinuxOSDiskChecker.lsblk_disks; LinuxOSDiskChecker.lsblk_drive path].
Proof.
  intros Hn. rewrite posix_returned in Hn. split.
  - rewrite posix_check_disks_run. cbn [events nth_error].
    unfold posix_report. cbn [map nth_error].
    apply map_nth_error.
    rewrite (map_nth_error _ _ _ (enumerate_nth _ 1 _ _ Hn)).
    rewrite (Z.add_comm 1). reflexivity.
  - rewrite (posix_by_number _ _ os (int_str_int (Z.of_nat k + 1))).
    rewrite getitem_nonneg by lia.
    replace (Z.to_nat (Z.of_nat k + 1 - 1)) with k by lia.
    rewrite Hn. rewrite events_after. cbn [hd app commands].
    rewrite describe_commands. reflexivity.
Qed.

Lemma posix_report_number_selects_witness :
  nth_error (events (@LinuxOSDiskChecker.check_disks two_disks false tt)) 3 =
    Some (Stdout (LinuxOSDiskChecker.report_line (Z.of_nat 1 + 1) "/dev/sdb" "1T"))
  /\ commands (events (@LinuxOSDiskChecker.check_specific_drive two_disks
                         (str_int (Z.of_nat 1 + 1)) tt)) =
     [LinuxOSDiskChecker.lsblk_disks; LinuxOSDiskChecker.lsblk_drive "/dev/sdb"].
Proof.
  apply (@posix_report_number_selects two_disks tt 1%nat "/dev/sdb" "1T").
  reflexivity.
Defined.





(** ** The dispatcher and the empty enumeration *)

(** X17.  The dispatcher, for a value of [os.name] that is neither [posix]
    nor [nt]: it prints that the platform is not supported and does nothing
    else, whatever the arguments; no backend is built and the host is not
    queried. *)
Theorem main_unsupported_os `{Host} (argv : list string) (os_name : string) (os : OS) :
  os_name <> "posix" ->
  os_name <> "nt" ->
  main argv os_name os = Outcome (Return tt) [Stdout "OS not supported!"] os.
Proof.
  intros Hposix Hnt. unfold main.
  apply String.eqb_neq in Hposix. apply String.eqb_neq in Hnt.
  rewrite Hposix, Hnt. reflexivity.
Qed.

Lemma main_unsupported_os_witness :
  @main two_disks ["disk_size.py"; "1"] "java" tt =
  @Outcome two_disks unit (Return tt) [Stdout "OS not supported!"] tt.
Proof.
  apply (@main_unsupported_os two_disks ["disk_size.py"; "1"] "java" tt);
    discriminate.
Defined.

(** X18.  POSIX, when the listing of the drives answers with no line: the
    report is the header alone, with the count 0 and the singular, and
    every selector that is a number (0 and the negative ones too) is
    answered with the message for a wrong id followed by a new report. *)
Theorem posix_no_drives `{Host} (os : OS) :
  listing os = [] ->
  stdout (events (LinuxOSDiskChecker.check_disks false os)) =
    "You have 0 hard drive installed: " ++ nl ++ nl
  /\ forall (inp : string) (i : Z),
       int inp = Some i ->
       res (LinuxOSDiskChecker.check_specific_drive inp os) = Return tt
       /\ stdout (events (LinuxOSDiskChecker.check_specific_drive inp os)) =
          LinuxOSDiskChecker.wrong_id ++ nl
            ++ stdout (events (LinuxOSDiskChecker.check_disks false (after_listing os))).
Proof.
  intros Hempty. split.
  - rewrite posix_check_disks_run, Hempty. reflexivity.
  - intros inp i Hint. rewrite (posix_by_number inp i os Hint), Hempty.
    cbn [posix_records map].
    rewrite (getitem_out_of_range (@nil (list string)) i)
      by (unfold len; cbn [List.length]; lia).
    cbv zeta. split; reflexivity.
Qed.

Lemma posix_no_drives_witness :
  stdout (events (@LinuxOSDiskChecker.check_disks no_disks false tt)) =
    "You have 0 hard drive installed: " ++ nl ++ nl
  /\ forall (inp : string) (i : Z),
       int inp = Some i ->
       res (@LinuxOSDiskChecker.check_specific_drive no_disks inp tt) = Return tt
       /\ stdout (events (@LinuxOSDiskChecker.check_specific_drive no_disks inp tt)) =
          LinuxOSDiskChecker.wrong_id ++ nl
            ++ stdout (events (@LinuxOSDiskChecker.check_disks no_disks false
                                 (@after_listing no_disks tt))).
Proof. apply (@posix_no_drives no_disks tt). reflexivity. Defined.
